(** * discord-starboards: the starboard registry of [src/index.js]

    A shallow embedding of the [StarboardsManager] class: its constructor,
    [_mergeOptions], [create], [delete], [getAllStarboards],
    [saveStarboard] and [deleteStarboard], over a small model of the
    JavaScript values, exceptions, the JSON codec and the file system the
    class runs on.

    Modelling conventions.
    - JavaScript values are the inductive [value]; objects are association
      lists in insertion order, arrays are lists.  Object identity is not
      modelled: every [===] of the class has a string on one side.
    - A computation of the class is an [Action]: a function from the
      [world] (the manager instance and the disk) to a completion (normal
      or thrown) and the world it leaves behind.  A throw keeps the
      mutations made before it, as in JavaScript.
    - An [async] method is run to its end at the place it is called; when
      the caller does not [await] it, a rejection is dropped
      ([fire_and_forget]).  Interleavings of pending promises are outside
      the model.
    - Event listeners are observers: [emit] appends to the log [emitted]. *)

From Stdlib Require Import ZArith Ascii String Decimal DecimalString DecimalFacts DecimalN.
From stdpp Require Import base option list strings gmap.

Local Open Scope string_scope.
Local Open Scope list_scope.

(** ** JavaScript values *)

(** Numbers.  Finite numbers are kept exactly: an integer, or a decimal
    fraction [m / 10^k] in lowest form (rounding to binary64 and the sign of
    zero are outside the model). *)
Inductive number : Type :=
| Int (z : Z)
| Frac (m : Z) (k : nat)
| NaN
| Infinity (negative : bool).

#[warnings="-register-all"]
Inductive value : Type :=
| VUndefined
| VNull
| VBool (b : bool)
| VNum (n : number)
| VStr (s : string)
| VArr (items : list value)
| VObj (fields : list (string * value)).

(** The exceptions the class throws or lets through, by constructor. *)
Inductive js_error : Type :=
| JsError (message : string)
| JsSyntaxError (message : string)
| JsTypeError (message : string).

Definition message (e : js_error) : string :=
  match e with
  | JsError m | JsSyntaxError m | JsTypeError m => m
  end.

Inductive completion (A : Type) : Type :=
| Normal (a : A)
| Throw (e : js_error).
Arguments Normal {A} a.
Arguments Throw {A} e.

#[global] Instance completion_ret : MRet completion := @Normal.

#[global] Instance completion_bind : MBind completion := fun A B k c =>
  match c with
  | Normal a => k a
  | Throw e => Throw e
  end.

Definition dquote : ascii := "034"%char.

Definition quoted (s : string) : string :=
  String dquote (s +:+ String dquote EmptyString).

(** [typeof v] *)
Definition typeof (v : value) : string :=
  match v with
  | VUndefined => "undefined"
  | VNull => "object"
  | VBool _ => "boolean"
  | VNum _ => "number"
  | VStr _ => "string"
  | VArr _ => "object"
  | VObj _ => "object"
  end.

(** [!v] is [negb (truthy v)]. *)
Definition truthy (v : value) : bool :=
  match v with
  | VUndefined | VNull => false
  | VBool b => b
  | VNum (Int z) => negb (Z.eqb z 0)
  | VNum (Frac _ _) => true
  | VNum NaN => false
  | VNum (Infinity _) => true
  | VStr s => negb (String.eqb s EmptyString)
  | VArr _ | VObj _ => true
  end.

Definition number_eqb (a b : number) : bool :=
  match a, b with
  | Int x, Int y => Z.eqb x y
  | Frac m k, Frac m' k' => Z.eqb m m' && Nat.eqb k k'
  | Infinity s, Infinity s' => Bool.eqb s s'
  | _, _ => false
  end.

(** [a === b] on primitives.  Two objects are equal only when they are the
    same object, which the model cannot tell: the class never compares two
    objects. *)
Definition strict_equals (a b : value) : bool :=
  match a, b with
  | VUndefined, VUndefined => true
  | VNull, VNull => true
  | VBool x, VBool y => Bool.eqb x y
  | VNum x, VNum y => number_eqb x y
  | VStr x, VStr y => String.eqb x y
  | _, _ => false
  end.

Fixpoint lookup_field (k : string) (fields : list (string * value)) : option value :=
  match fields with
  | [] => None
  | (k', v) :: rest => if String.eqb k' k then Some v else lookup_field k rest
  end.

(** [v.k] for the property names the class reads ([id], [storage], [emoji],
    [channelID], [options], ...): none of them is defined on a prototype, so
    on a primitive or an array the read gives [undefined]. *)
Definition get (v : value) (k : string) : completion value :=
  match v with
  | VUndefined =>
      Throw (JsTypeError ("Cannot read property '" +:+ k +:+ "' of undefined"))
  | VNull =>
      Throw (JsTypeError ("Cannot read property '" +:+ k +:+ "' of null"))
  | VObj fields => Normal (default VUndefined (lookup_field k fields))
  | _ => Normal VUndefined
  end.

(** [Array.prototype.find] with a callback that may throw. *)
Fixpoint Array_find (p : value -> completion bool) (l : list value) : completion value :=
  match l with
  | [] => Normal VUndefined
  | x :: rest =>
      b ← p x;
      if b : bool then Normal x else Array_find p rest
  end.

(** [Array.prototype.filter] with a callback that may throw. *)
Fixpoint Array_filter (p : value -> completion bool) (l : list value) : completion (list value) :=
  match l with
  | [] => Normal []
  | x :: rest =>
      b ← p x;
      kept ← Array_filter p rest;
      Normal (if b : bool then x :: kept else kept)
  end.

(** ** JSON

    [JSON.stringify] and [JSON.parse] of the runtime, on the values above.
    The printer writes in front of a continuation string; the parser is a
    recursive descent over [next_token], with fuel that twice the length of
    the text covers.  Not modelled: [toJSON], the ordering of integer-like
    keys, the pairing of surrogate escapes, and the position reported in
    the message of a syntax error (an unexpected string or number is
    reported by its first character). *)
Module JSON.

Inductive token : Type :=
| TLBrace | TRBrace | TLBracket | TRBracket | TColon | TComma
| TString (s : string)
| TNumber (n : number)
| TTrue | TFalse | TNull.

(** *** Printing *)

Definition hex_digit (n : N) : ascii :=
  match n with
  | 0 => "0" | 1 => "1" | 2 => "2" | 3 => "3" | 4 => "4" | 5 => "5"
  | 6 => "6" | 7 => "7" | 8 => "8" | 9 => "9" | 10 => "a" | 11 => "b"
  | 12 => "c" | 13 => "d" | 14 => "e" | _ => "f"
  end%N%char.

(** One character of a string literal, as [JSON.stringify] quotes it. *)
Definition write_char (c : ascii) (k : string) : string :=
  match c with
  | "034" => String "\" (String dquote k)
  | "\" => String "\" (String "\" k)
  | "008" => String "\" (String "b" k)
  | "012" => String "\" (String "f" k)
  | "010" => String "\" (String "n" k)
  | "013" => String "\" (String "r" k)
  | "009" => String "\" (String "t" k)
  | _ =>
      let n := N_of_ascii c in
      if (n <? 32)%N
      then String "\" (String "u" (String "0" (String "0"
             (String (hex_digit (n / 16)) (String (hex_digit (n mod 16)) k)))))
      else String c k
  end%char.

Fixpoint write_chars (s : string) (k : string) : string :=
  match s with
  | EmptyString => k
  | String c s' => write_char c (write_chars s' k)
  end.

Definition write_string (s : string) (k : string) : string :=
  String dquote (write_chars s (String dquote k)).

Definition print_N (n : N) : string := NilEmpty.string_of_uint (N.to_uint n).

Fixpoint pad_zeros (width : nat) (s : string) : string :=
  match width with
  | O => s
  | S w => if Nat.ltb (String.length s) width then pad_zeros w (String "0" s) else s
  end.

Definition print_number (n : number) : string :=
  match n with
  | Int z =>
      if (z <? 0)%Z then String "-" (print_N (Z.abs_N z)) else print_N (Z.abs_N z)
  | Frac m k =>
      let a := Z.abs_N m in
      let scale := (10 ^ N.of_nat k)%N in
      (if (m <? 0)%Z then String "-" else fun s => s)
        (print_N (a / scale) +:+ String "." (pad_zeros k (print_N (a mod scale))))
  | NaN | Infinity _ => "null"
  end.

Section Writers.
Variable write : value -> string -> string.

(** Array elements, comma separated. *)
Fixpoint write_items (l : list value) (first : bool) (k : string) : string :=
  match l with
  | [] => k
  | x :: rest =>
      (if first then fun s => s else String ",")
        (write x (write_items rest false k))
  end.

(** Object members; a member whose value is [undefined] is left out. *)
Fixpoint write_members (l : list (string * value)) (first : bool) (k : string) : string :=
  match l with
  | [] => k
  | (key, x) :: rest =>
      match x with
      | VUndefined => write_members rest first k
      | _ =>
          (if first then fun s => s else String ",")
            (write_string key (String ":" (write x (write_members rest false k))))
      end
  end.
End Writers.

(** [write_value v k] is the text of [v] followed by [k]; inside an array
    [undefined] is written as [null]. *)
Fixpoint write_value (v : value) (k : string) : string :=
  match v with
  | VUndefined | VNull => "null" +:+ k
  | VBool true => "true" +:+ k
  | VBool false => "false" +:+ k
  | VNum n => print_number n +:+ k
  | VStr s => write_string s k
  | VArr items => String "[" (write_items write_value items true (String "]" k))
  | VObj fields => String "{" (write_members write_value fields true (String "}" k))
  end.

(** [JSON.stringify(v)]; [None] is the result [undefined]. *)
Definition stringify (v : value) : option string :=
  match v with
  | VUndefined => None
  | _ => Some (write_value v EmptyString)
  end.
(** *** Parsing *)

(** Outcome of scanning a prefix of the text: the item read and the rest
    of the text, the end of the text reached too early, or a character that
    cannot occur where it stands. *)
Inductive scan (A : Type) : Type :=
| Scanned (a : A) (rest : string)
| ScanEnd
| ScanBad (c : ascii).
Arguments Scanned {A} a rest.
Arguments ScanEnd {A}.
Arguments ScanBad {A} c.

Definition scan_bind {A B} (x : scan A) (f : A -> string -> scan B) : scan B :=
  match x with
  | Scanned a rest => f a rest
  | ScanEnd => ScanEnd
  | ScanBad c => ScanBad c
  end.

Definition scan_map {A B} (f : A -> B) (x : scan A) : scan B :=
  scan_bind x (fun a rest => Scanned (f a) rest).

Definition is_whitespace (c : ascii) : bool :=
  match c with
  | " " | "009" | "010" | "013" => true
  | _ => false
  end%char.

Definition is_digit (c : ascii) : bool :=
  match c with
  | "0" | "1" | "2" | "3" | "4" | "5" | "6" | "7" | "8" | "9" => true
  | _ => false
  end%char.

Definition hex_value (c : ascii) : option N :=
  let n := N_of_ascii c in
  if (48 <=? n)%N && (n <=? 57)%N then Some (n - 48)%N
  else if (97 <=? n)%N && (n <=? 102)%N then Some (n - 87)%N
  else if (65 <=? n)%N && (n <=? 70)%N then Some (n - 55)%N
  else None.

(** The character after a backslash, other than [u]. *)
Definition unescape (c : ascii) : option ascii :=
  match c with
  | "034" => Some dquote
  | "\" => Some "\"
  | "/" => Some "/"
  | "b" => Some "008"
  | "f" => Some "012"
  | "n" => Some "010"
  | "r" => Some "013"
  | "t" => Some "009"
  | _ => None
  end%char.

(** The UTF-8 bytes of the code unit of a [\uXXXX] escape. *)
Definition utf8 (n : N) (k : string) : string :=
  if (n <? 128)%N then String (ascii_of_N n) k
  else if (n <? 2048)%N then
    String (ascii_of_N (192 + n / 64)) (String (ascii_of_N (128 + n mod 64)) k)
  else
    String (ascii_of_N (224 + n / 4096))
      (String (ascii_of_N (128 + (n / 64) mod 64))
         (String (ascii_of_N (128 + n mod 64)) k)).

(** What is wrong with an escape that is not four hexadecimal digits. *)
Fixpoint bad_hex (width : nat) (s : string) : scan string :=
  match width, s with
  | O, _ => ScanEnd
  | _, EmptyString => ScanEnd
  | S w, String c rest =>
      match hex_value c with
      | Some _ => bad_hex w rest
      | None => ScanBad c
      end
  end.

(** The characters of a string literal after its opening quote. *)
Fixpoint lex_string_body (s : string) : scan string :=
  match s with
  | EmptyString => ScanEnd
  | String c s1 =>
      if Ascii.eqb c dquote then Scanned EmptyString s1
      else if Ascii.eqb c "\" then
        match s1 with
        | EmptyString => ScanEnd
        | String "u" s2 =>
            match s2 with
            | String h1 (String h2 (String h3 (String h4 s3))) =>
                match hex_value h1, hex_value h2, hex_value h3, hex_value h4 with
                | Some a, Some b, Some c, Some d =>
                    scan_map (utf8 (((a * 16 + b) * 16 + c) * 16 + d))
                      (lex_string_body s3)
                | _, _, _, _ => bad_hex 4 s2
                end
            | _ => bad_hex 4 s2
            end
        | String e s2 =>
            match unescape e with
            | Some ch => scan_map (String ch) (lex_string_body s2)
            | None => ScanBad e
            end
        end
      else if (N_of_ascii c <? 32)%N then ScanBad c
      else scan_map (String c) (lex_string_body s1)
  end.

Fixpoint take_digits (s : string) : string * string :=
  match s with
  | EmptyString => (EmptyString, EmptyString)
  | String c rest =>
      if is_digit c
      then let (ds, r) := take_digits rest in (String c ds, r)
      else (EmptyString, s)
  end.

Definition digits_N (ds : string) : N :=
  match NilEmpty.uint_of_string ds with
  | Some u => N.of_uint u
  | None => 0
  end.

(** One or more digits. *)
Definition lex_digits (s : string) : scan string :=
  match take_digits s with
  | (EmptyString, _) =>
      match s with
      | EmptyString => ScanEnd
      | String c _ => ScanBad c
      end
  | (ds, rest) => Scanned ds rest
  end.

(** The optional fraction of a number: its digits, none when absent. *)
Definition lex_fraction (s : string) : scan string :=
  match s with
  | String "." rest => lex_digits rest
  | _ => Scanned EmptyString s
  end.

(** The optional exponent of a number, [0] when absent. *)
Definition lex_exponent (s : string) : scan Z :=
  match s with
  | String ("e" | "E") rest =>
      match rest with
      | String "-" rest' => scan_map (fun ds => (- Z.of_N (digits_N ds))%Z) (lex_digits rest')
      | String "+" rest' => scan_map (fun ds => Z.of_N (digits_N ds)) (lex_digits rest')
      | _ => scan_map (fun ds => Z.of_N (digits_N ds)) (lex_digits rest)
      end
  | _ => Scanned 0%Z s
  end.

(** [m / 10^k] in lowest form. *)
Fixpoint lowest_form (k : nat) (m : Z) : number :=
  match k with
  | O => Int m
  | S k' => if (m mod 10 =? 0)%Z then lowest_form k' (m / 10) else Frac m k
  end.

Definition make_number (negative : bool) (int_part fraction : string) (exponent : Z) : number :=
  let mantissa := Z.of_N (digits_N (int_part +:+ fraction)) in
  let signed := if negative then (- mantissa)%Z else mantissa in
  let scale := (exponent - Z.of_nat (String.length fraction))%Z in
  if (0 <=? scale)%Z then Int (signed * 10 ^ scale)
  else lowest_form (Z.to_nat (- scale)) signed.

(** A number literal: an optional minus sign, an integer part without a
    leading zero, an optional fraction and an optional exponent. *)
Definition lex_number (s : string) : scan number :=
  let '(negative, s1) :=
    match s with
    | String "-" rest => (true, rest)
    | _ => (false, s)
    end in
  scan_bind
    match s1 with
    | String "0" rest => Scanned (String "0" EmptyString) rest
    | _ => lex_digits s1
    end
    (fun int_part s2 =>
       scan_bind (lex_fraction s2) (fun fraction s3 =>
       scan_bind (lex_exponent s3) (fun exponent s4 =>
       Scanned (make_number negative int_part fraction exponent) s4))).

(** The rest of a keyword whose first letter has been read. *)
Fixpoint lex_keyword (word : string) (t : token) (s : string) : scan token :=
  match word, s with
  | EmptyString, _ => Scanned t s
  | String _ _, EmptyString => ScanEnd
  | String w word', String c rest =>
      if Ascii.eqb w c then lex_keyword word' t rest else ScanBad c
  end.

(** The next token of the text, after any whitespace; [ScanEnd] when only
    whitespace is left. *)
Fixpoint next_token (s : string) : scan token :=
  match s with
  | EmptyString => ScanEnd
  | String c rest =>
      if is_whitespace c then next_token rest
      else
        match c with
        | "{" => Scanned TLBrace rest
        | "}" => Scanned TRBrace rest
        | "[" => Scanned TLBracket rest
        | "]" => Scanned TRBracket rest
        | ":" => Scanned TColon rest
        | "," => Scanned TComma rest
        | "034" => scan_map TString (lex_string_body rest)
        | "t" => lex_keyword "rue" TTrue rest
        | "f" => lex_keyword "alse" TFalse rest
        | "n" => lex_keyword "ull" TNull rest
        | _ =>
            if is_digit c || Ascii.eqb c "-"
            then scan_map TNumber (lex_number s)
            else ScanBad c
        end
  end%char.

(** The first character of a token, for the error that reports it. *)
Definition token_char (t : token) : ascii :=
  match t with
  | TLBrace => "{" | TRBrace => "}" | TLBracket => "[" | TRBracket => "]"
  | TColon => ":" | TComma => ","
  | TString _ => dquote
  | TNumber _ => "0"
  | TTrue => "t" | TFalse => "f" | TNull => "n"
  end%char.

(** [o[k] = v] on the members read so far: a repeated key keeps its first
    place and takes the last value. *)
Fixpoint obj_set (k : string) (v : value) (fields : list (string * value)) : list (string * value) :=
  match fields with
  | [] => [(k, v)]
  | (k', v') :: rest =>
      if String.eqb k' k then (k', v) :: rest else (k', v') :: obj_set k v rest
  end.

Definition obj_of_members (members : list (string * value)) : list (string * value) :=
  fold_left (fun acc m => obj_set m.1 m.2 acc) members [].

Fixpoint parse_value (fuel : nat) (s : string) : scan value :=
  match fuel with
  | O => ScanEnd
  | S fuel' =>
      scan_bind (next_token s) (fun t rest =>
        match t with
        | TNull => Scanned VNull rest
        | TTrue => Scanned (VBool true) rest
        | TFalse => Scanned (VBool false) rest
        | TNumber n => Scanned (VNum n) rest
        | TString x => Scanned (VStr x) rest
        | TLBracket =>
            match next_token rest with
            | Scanned TRBracket rest' => Scanned (VArr []) rest'
            | _ => scan_map VArr (parse_elements fuel' rest)
            end
        | TLBrace =>
            match next_token rest with
            | Scanned TRBrace rest' => Scanned (VObj []) rest'
            | _ => scan_map (fun ms => VObj (obj_of_members ms)) (parse_members fuel' rest)
            end
        | TRBrace | TRBracket | TColon | TComma => ScanBad (token_char t)
        end)
  end
with parse_elements (fuel : nat) (s : string) : scan (list value) :=
  match fuel with
  | O => ScanEnd
  | S fuel' =>
      scan_bind (parse_value fuel' s) (fun v rest =>
      scan_bind (next_token rest) (fun t rest' =>
        match t with
        | TComma => scan_map (cons v) (parse_elements fuel' rest')
        | TRBracket => Scanned [v] rest'
        | _ => ScanBad (token_char t)
        end))
  end
with parse_members (fuel : nat) (s : string) : scan (list (string * value)) :=
  match fuel with
  | O => ScanEnd
  | S fuel' =>
      scan_bind (next_token s) (fun tk rest =>
        match tk with
        | TString key =>
            scan_bind (next_token rest) (fun tc rest1 =>
              match tc with
              | TColon =>
                  scan_bind (parse_value fuel' rest1) (fun v rest2 =>
                  scan_bind (next_token rest2) (fun t rest3 =>
                    match t with
                    | TComma => scan_map (cons (key, v)) (parse_members fuel' rest3)
                    | TRBrace => Scanned [(key, v)] rest3
                    | _ => ScanBad (token_char t)
                    end))
              | _ => ScanBad (token_char tc)
              end)
        | _ => ScanBad (token_char tk)
        end)
  end.

Definition unexpected_end : js_error :=
  JsSyntaxError "Unexpected end of JSON input".

Definition unexpected_token (c : ascii) : js_error :=
  JsSyntaxError ("Unexpected token " +:+ String c " in JSON").

(** [JSON.parse(text)].  The fuel is never used up: every two calls of the
    parser read at least one character. *)
Definition parse (text : string) : completion value :=
  match parse_value (S (2 * String.length text)) text with
  | Scanned v rest =>
      match next_token rest with
      | ScanEnd => Normal v
      | Scanned t _ => Throw (unexpected_token (token_char t))
      | ScanBad c => Throw (unexpected_token c)
      end
  | ScanEnd => Throw unexpected_end
  | ScanBad c => Throw (unexpected_token c)
  end.

End JSON.

(** ** The manager and the world it runs in *)

(** Modelled from the spec: the shape of the constant
    [StarBoardCreateDefaultsOptions] of [./constants], a file that is not
    among the sources.  The specification gives it four options, each with
    a default: a string, two booleans and a number. *)
Record StarBoardCreateOptions : Type := {
  emoji : string;
  starBotMsg : bool;
  selfStar : bool;
  threshold : number
}.

(** The object holding these options, with its properties in the order in
    which [_mergeOptions] writes them. *)
Definition options_object (o : StarBoardCreateOptions) : value :=
  VObj [("emoji", VStr (emoji o));
        ("starBotMsg", VBool (starBotMsg o));
        ("selfStar", VBool (selfStar o));
        ("threshold", VNum (threshold o))].

(** A [Discord.Channel], as far as [create] reads it: [channel.id] and
    [channel.guild.id], both snowflakes. *)
Record Channel : Type := {
  channel_id : string;
  channel_guild_id : string
}.

(** The fields of a [StarboardsManager] instance.  [storage] is
    [this.options.storage]; [emitted] is the log of the events the instance
    has emitted, oldest first. *)
Record Manager : Type := {
  starboards : list value;
  defaultsOptions : StarBoardCreateOptions;
  storage : value;
  emitted : list (string * value)
}.

Record world : Type := {
  this : Manager;
  disk : gmap string string
}.

Definition Action (A : Type) : Type := world -> completion A * world.

#[global] Instance Action_ret : MRet Action := fun A a w => (Normal a, w).

#[global] Instance Action_bind : MBind Action := fun A B k m w =>
  match m w with
  | (Normal a, w') => k a w'
  | (Throw e, w') => (Throw e, w')
  end.

Definition throw {A} (e : js_error) : Action A := fun w => (Throw e, w).

Definition lift {A} (c : completion A) : Action A := fun w => (c, w).

Definition get_this : Action Manager := fun w => (Normal (this w), w).

(** [try { body } catch (e) { handler }] *)
Definition try_catch {A} (body : Action A) (handler : js_error -> Action A) : Action A :=
  fun w =>
    match body w with
    | (Throw e, w') => handler e w'
    | done => done
    end.

(** A call of an [async] method that is not awaited: its effects are taken
    to happen before the caller goes on, and a rejection goes unobserved by
    the caller. *)
Definition fire_and_forget {A} (m : Action A) : Action unit :=
  fun w => (Normal tt, (m w).2).

Definition set_starboards (l : list value) : Action unit := fun w =>
  (Normal tt,
   {| this := {| starboards := l;
                 defaultsOptions := defaultsOptions (this w);
                 storage := storage (this w);
                 emitted := emitted (this w) |};
      disk := disk w |}).

(** [this.emit(name, payload)] *)
Definition emit (name : string) (payload : value) : Action unit := fun w =>
  (Normal tt,
   {| this := {| starboards := starboards (this w);
                 defaultsOptions := defaultsOptions (this w);
                 storage := storage (this w);
                 emitted := emitted (this w) ++ [(name, payload)] |};
      disk := disk w |}).

(** *** The file system, as [fs] is used

    The disk maps a path to the text of the file there.  A path that is not
    a string is refused by [writeFile] and [readFile] and does not exist for
    [exists]; other failures of the operating system are not modelled. *)

Definition invalid_path : js_error :=
  JsTypeError "The path argument must be of type string or an instance of Buffer or URL.".

(** [promisify(exists)]: [fs.exists] answers [false] for an argument it
    cannot take as a path. *)
Definition existsAsync (path : value) : Action bool := fun w =>
  (Normal match path with
          | VStr p => bool_decide (is_Some (disk w !! p))
          | _ => false
          end, w).

(** [promisify(writeFile)]; [data] is [None] when it is [undefined]. *)
Definition writeFileAsync (path : value) (data : option string) : Action unit := fun w =>
  match path, data with
  | VStr p, Some text => (Normal tt, {| this := this w; disk := <[p := text]> (disk w) |})
  | VStr _, None =>
      (Throw (JsTypeError "The data argument must be of type string or an instance of Buffer."), w)
  | _, _ => (Throw invalid_path, w)
  end.

(** [promisify(readFile)], followed by [toString()]. *)
Definition readFileAsync (path : value) : Action string := fun w =>
  match path with
  | VStr p =>
      match disk w !! p with
      | Some text => (Normal text, w)
      | None => (Throw (JsError ("ENOENT: no such file or directory, open '" +:+ p +:+ "'")), w)
      end
  | _ => (Throw invalid_path, w)
  end.

(** ** The class [StarboardsManager] *)
Module StarboardsManager.

(** The [client] argument of the constructor: a [Discord.Client], or
    nothing ([undefined], or any other falsy argument). *)
Inductive Client : Type := DiscordClient.

(** [_mergeOptions(options)], lines 80-89. *)
Definition _mergeOptions (self : Manager) (options : value) : completion value :=
  if negb (truthy options) then Normal (options_object (defaultsOptions self))
  else
    e ← get options "emoji";
    b ← get options "starBotMsg";
    s ← get options "selfStar";
    t ← get options "threshold";
    Normal
      (VObj
         [("emoji",
           if String.eqb (typeof e) "string" then e
           else VStr (emoji (defaultsOptions self)));
          ("starBotMsg",
           if String.eqb (typeof b) "boolean" then b
           else VBool (starBotMsg (defaultsOptions self)));
          ("selfStar",
           if String.eqb (typeof s) "boolean" then s
           else VBool (selfStar (defaultsOptions self)));
          ("threshold",
           if String.eqb (typeof t) "number" then t
           else VNum (threshold (defaultsOptions self)))]).

(** [saveStarboard(data)], lines 192-199. *)
Definition saveStarboard (data : value) : Action value :=
  self ← get_this;
  writeFileAsync (storage self) (JSON.stringify (VArr (starboards self)));;
  mret (VBool true).

(** [deleteStarboard(channelID)], lines 179-186. *)
Definition deleteStarboard (channelID : string) : Action value :=
  self ← get_this;
  writeFileAsync (storage self) (JSON.stringify (VArr (starboards self)));;
  mret (VBool true).

(** The record [channelData] that [create] builds, lines 103-107. *)
Definition channelData_of (channel : Channel) (merged : value) : value :=
  VObj [("channelID", VStr (channel_id channel));
        ("guildID", VStr (channel_guild_id channel));
        ("options", merged)].

(** The callback of [find] in [create], line 109:
    [data.channelID === channelData.channelID &&
     data.options.emoji === channelData.options.emoji] *)
Definition same_channel_and_emoji (channelData data : value) : completion bool :=
  c ← get data "channelID";
  c' ← get channelData "channelID";
  if strict_equals c c' then
    o ← get data "options";
    e ← get o "emoji";
    o' ← get channelData "options";
    e' ← get o' "emoji";
    Normal (strict_equals e e')
  else Normal false.

(** The callback of [find] in [delete], line 126:
    [channelData.channelID === channelID] *)
Definition same_channel (channelID : string) (channelData : value) : completion bool :=
  c ← get channelData "channelID";
  Normal (strict_equals c (VStr channelID)).

(** The callback of [filter] in [delete], line 129:
    [channelData.channelID !== channelID] *)
Definition other_channel (channelID : string) (channelData : value) : completion bool :=
  c ← get channelData "channelID";
  Normal (negb (strict_equals c (VStr channelID))).

(** [create(channel, options)], lines 101-117.  [saveStarboard] is called
    and not awaited. *)
Definition create (channel : Channel) (options : value) : Action value :=
  self ← get_this;
  merged ← lift (_mergeOptions self options);
  let channelData := channelData_of channel merged in
  found ← lift (Array_find (same_channel_and_emoji channelData) (starboards self));
  if truthy found
  then throw (JsError "There is already a starboard in this channel with the same emoji")
  else
    set_starboards (starboards self ++ [channelData]);;
    fire_and_forget (saveStarboard channelData);;
    emit "starboardCreate" channelData;;
    mret (VBool true).

(** [delete(channelID)], lines 125-136.  [deleteStarboard] is called and
    not awaited. *)
Definition delete (channelID : string) : Action value :=
  self ← get_this;
  data ← lift (Array_find (same_channel channelID) (starboards self));
  if negb (truthy data)
  then throw (JsError ("The channel " +:+ quoted channelID +:+ " is not a starboard"))
  else
    kept ← lift (Array_filter (other_channel channelID) (starboards self));
    set_starboards kept;;
    fire_and_forget (deleteStarboard channelID);;
    emit "starboardDelete" data;;
    mret (VBool true).

(** The listener of the client's [channelDelete] event, lines 57-60:
    [channel => { const channelData = this.starboards.find(data =>
    data.channelID === channel.id); if (channelData) return
    this.delete(channelData.channelID); }].  [delete] is given the
    [channelID] of the entry found; the callback of [find] has compared it
    equal to the string [channel.id], so it is a string (the other branch of
    the [match] is never taken, see [found_channelID]). *)
Definition channelDelete_listener (channel : Channel) : Action value :=
  self ← get_this;
  channelData ← lift (Array_find (same_channel (channel_id channel)) (starboards self));
  if truthy channelData then
    channelID ← lift (get channelData "channelID");
    match channelID with
    | VStr id => delete id
    | _ => mret VUndefined
    end
  else mret VUndefined.

(** [getAllStarboards()], lines 142-173.  The [console.log] in front of
    the first [throw] is left out. *)
Definition getAllStarboards : Action (list value) :=
  self ← get_this;
  storageExists ← existsAsync (storage self);
  if negb storageExists then
    writeFileAsync (storage self) (Some "[]");;
    mret []
  else
    storageContent ← readFileAsync (storage self);
    try_catch
      (parsed ← lift (JSON.parse storageContent);
       match parsed with
       | VArr items => mret items
       | _ =>
           throw (JsSyntaxError
                    "The storage file is not properly formatted (giveaways is not an array).")
       end)
      (fun e =>
         if String.eqb (message e) "Unexpected end of JSON input"
         then throw (JsSyntaxError
                       "The storage file is not properly formatted (Unexpected end of JSON input).")
         else throw e).

(** [_init()], lines 71-73. *)
Definition _init : Action unit :=
  loaded ← getAllStarboards;
  set_starboards loaded.

(** [this.options.storage], from the [options] argument, lines 51-53. *)
Definition storage_option (options : value) : completion value :=
  s ← get options "storage";
  Normal (if String.eqb (typeof s) "boolean" || String.eqb (typeof s) "string"
          then s else VStr "./starboards.json").

Section Constructor.

(** The constant [StarBoardCreateDefaultsOptions], exported by
    [./constants]. *)
Variable StarBoardCreateDefaultsOptions : StarBoardCreateOptions.

(** [new StarboardsManager(client, options)] on a disk, lines 25-64: the
    instance and the disk once [_init], which the constructor does not await,
    has settled.  The listeners the constructor registers on the client
    ([channelDelete], [raw]) are not part of the embedding. *)
Definition constructor (client : option Client) (options : value)
    (files : gmap string string) : completion world :=
  let options := match options with VUndefined => VObj [] | _ => options end in
  match client with
  | None => Throw (JsError "Client is a required parameter.")
  | Some _ =>
      location ← storage_option options;
      Normal (fire_and_forget _init
                {| this := {| starboards := [];
                              defaultsOptions := StarBoardCreateDefaultsOptions;
                              storage := location;
                              emitted := [] |};
                   disk := files |}).2
  end.

End Constructor.

End StarboardsManager.

(** ** Notions of the specification *)

Import StarboardsManager.

(** The channel a registry entry belongs to, when it has one. *)
Definition channelID_of (v : value) : option string :=
  match get v "channelID" with
  | Normal (VStr c) => Some c
  | _ => None
  end.

(** The emoji of a registry entry, when it has one. *)
Definition emoji_of (v : value) : option string :=
  match get v "options" with
  | Normal o =>
      match get o "emoji" with
      | Normal (VStr e) => Some e
      | _ => None
      end
  | Throw _ => None
  end.

(** The pair (channelId, emoji) of a registry entry. *)
Definition pair_of (v : value) : option (string * string) :=
  c ← channelID_of v;
  e ← emoji_of v;
  Some (c, e).

(** A registry entry is a config when it carries such a pair: what [create]
    appends, and what a storage file written by the manager holds. *)
Definition is_config (v : value) : Prop := is_Some (pair_of v).

(** No two entries of the registry share a (channelId, emoji) pair. *)
Definition unique_pairs (registry : list value) : Prop :=
  forall i j x y,
    registry !! i = Some x -> registry !! j = Some y ->
    pair_of x = pair_of y -> i = j.

(** The value the caller supplied for an option, [undefined] when there is
    none. *)
Definition supplied (options : value) (k : string) : value :=
  match options with
  | VObj fields => default VUndefined (lookup_field k fields)
  | _ => VUndefined
  end.

(** [options] merged over [defaults], in the words of the specification:
    an option that is supplied with the type of its field is taken, any
    other takes the default. *)
Definition merge_over (defaults : StarBoardCreateOptions) (options : value) : StarBoardCreateOptions :=
  {| emoji := match supplied options "emoji" with VStr s => s | _ => emoji defaults end;
     starBotMsg := match supplied options "starBotMsg" with VBool b => b | _ => starBotMsg defaults end;
     selfStar := match supplied options "selfStar" with VBool b => b | _ => selfStar defaults end;
     threshold := match supplied options "threshold" with VNum n => n | _ => threshold defaults end |}.

(** The config that [create(channel, options)] builds on the instance
    [self]. *)
Definition config_of (self : Manager) (channel : Channel) (options : value) : value :=
  channelData_of channel (options_object (merge_over (defaultsOptions self) options)).

(** The errors of the specification, as the class throws them. *)
Definition DuplicateStarboardError : js_error :=
  JsError "There is already a starboard in this channel with the same emoji".

Definition NotFoundError (channelID : string) : js_error :=
  JsError ("The channel " +:+ quoted channelID +:+ " is not a starboard").

Definition is_StorageFormatError (e : js_error) : Prop :=
  exists m, e = JsSyntaxError m.

(** [findByChannel(channelId)]: the lookup
    [this.starboards.find(data => data.channelID === channelID)]. *)
Definition findByChannel (channelID : string) : Action value :=
  self ← get_this;
  lift (Array_find (same_channel channelID) (starboards self)).

(** The mutating calls of the registry, and a caller that makes them one
    after the other, going on after a call that throws. *)
Inductive call : Type :=
| Create (channel : Channel) (options : value)
| Delete (channelID : string).

Definition run_call (c : call) : Action value :=
  match c with
  | Create channel options => create channel options
  | Delete channelID => delete channelID
  end.

Fixpoint run_calls (cs : list call) (w : world) : world :=
  match cs with
  | [] => w
  | c :: rest => run_calls rest (run_call c w).2
  end.

(** The text of the whole registry, as both writers compute it. *)
Definition registry_text (self : Manager) : option string :=
  JSON.stringify (VArr (starboards self)).









(** The world after a mutating call on [w] has succeeded: the registry it
    leaves, the storage file overwritten with the text of that registry,
    and the event it emits. *)
Definition after_mutation (w : world) (registry : list value) (event : string * value) : world :=
  {| this := {| starboards := registry;
                defaultsOptions := defaultsOptions (this w);
                storage := storage (this w);
                emitted := emitted (this w) ++ [event] |};
     disk := match storage (this w), JSON.stringify (VArr registry) with
             | VStr p, Some text => <[p := text]> (disk w)
             | _, _ => disk w
             end |}.

(** The first entry of the registry that belongs to a channel. *)
Definition first_of_channel (channelID : string) (registry : list value) : option value :=
  snd <$> list_find (fun v => channelID_of v = Some channelID) registry.

(** The first entry of the registry that carries a pair. *)
Definition first_with_pair (p : option (string * string)) (registry : list value) : option value :=
  snd <$> list_find (fun v => pair_of v = p) registry.


(** The storage location the specification describes for an [options]
    argument of the constructor. *)
Definition storage_of_spec (options : value) : value :=
  match supplied options "storage" with
  | VBool b => VBool b
  | VStr p => VStr p
  | _ => VStr "./starboards.json"
  end.

(** *** Example data *)

(** A value for the constant [StarBoardCreateDefaultsOptions], along the
    lines of the specification. *)
Definition example_defaults : StarBoardCreateOptions :=
  {| emoji := "⭐"; starBotMsg := true; selfStar := false; threshold := Int 5 |}.

(** A manager with an empty registry and the default storage file, on an
    empty disk. *)
Definition example_world : world :=
  {| this := {| starboards := [];
                defaultsOptions := example_defaults;
                storage := VStr "./starboards.json";
                emitted := [] |};
     disk := ∅ |}.

Definition general : Channel := {| channel_id := "1001"; channel_guild_id := "42" |}.
Definition memes : Channel := {| channel_id := "1002"; channel_guild_id := "42" |}.

Definition fire_options : value :=
  VObj [("emoji", VStr "🔥"); ("threshold", VNum (Int 3)); ("selfStar", VStr "yes")].

(** [general] registered twice, with the default emoji and with another
    one, and [memes] once. *)
Definition example_calls : list call :=
  [Create general VUndefined; Create general fire_options; Create memes VNull].

Definition example_registry_world : world := run_calls example_calls example_world.


Definition world_of (c : completion world) : world :=
  match c with
  | Normal w => w
  | Throw _ => example_world
  end.


(** A manager built with persistence switched off. *)
Definition unsaved_world : world :=
  world_of (constructor example_defaults (Some DiscordClient)
              (VObj [("storage", VBool false)]) ∅).

(** A disk whose storage file was cut short while being written. *)
Definition truncated_disk : gmap string string :=
  {["./starboards.json" :=
      String.substring 0 60
        (default EmptyString (registry_text (this example_registry_world)))]}.

(** *** What happens to a manager

    The calls of the host application and the [channelDelete] events of the
    client, taken one after the other; a step that throws does not stop the
    ones after it. *)
Inductive step : Type :=
| Called (c : call)
| ChannelDeleted (channel : Channel).

Definition run_step (s : step) : Action value :=
  match s with
  | Called c => run_call c
  | ChannelDeleted channel => channelDelete_listener channel
  end.

Fixpoint run_steps (ss : list step) (w : world) : world :=
  match ss with
  | [] => w
  | s :: rest => run_steps rest (run_step s w).2
  end.



(** A manager on a disk, as the constructor leaves it once the registry is
    loaded. *)
Definition manager_on (defaults : StarBoardCreateOptions) (location : value)
    (registry : list value) (files : gmap string string) : world :=
  {| this := {| starboards := registry;
                defaultsOptions := defaults;
                storage := location;
                emitted := [] |};
     disk := files |}.

(** *** More example data *)

(** The manager the constructor leaves on an empty disk: an empty registry
    and a storage file holding the empty array. *)
Definition started_world : world :=
  manager_on example_defaults (VStr "./starboards.json") []
    {["./starboards.json" := "[]"]}.

(** A history with calls that fail, a channel deleted that has no
    starboard, and a channel deleted that has two. *)
Definition example_steps : list step :=
  [Called (Create general VUndefined);
   Called (Create general VUndefined);
   ChannelDeleted memes;
   Called (Create memes fire_options);
   Called (Create general fire_options);
   Called (Delete "9999");
   ChannelDeleted general].

(** A disk whose storage file holds an array of things that are not
    configs. *)
Definition odd_disk : gmap string string :=
  {["./starboards.json" := "[null,7]"]}.

(** ** The JSON round trip *)

Section JSONFacts.
Import JSON.





(** *** Numbers *)




















(** *** Values *)













(** *** The text is long enough to pay for the fuel *)







(** [JSON.parse] throws nothing but a [SyntaxError]. *)
Lemma parse_throws_SyntaxError (text : string) (e : js_error) :
  parse text = Throw e -> exists m, e = JsSyntaxError m.
Proof.
  unfold parse.
  destruct (parse_value _ text) as [v rest| |c].
  - destruct (next_token rest) as [t rest'| |c]; intros [= <-]; eexists; reflexivity.
  - intros [= <-]. eexists; reflexivity.
  - intros [= <-]. eexists; reflexivity.
Qed.

(** The text of an array is never [undefined]. *)
Lemma stringify_array (items : list value) :
  stringify (VArr items) = Some (write_value (VArr items) EmptyString).
Proof. reflexivity. Qed.


(** *** The fuel of the parser is never used up *)

Lemma scan_map_Scanned {A B} (f : A -> B) (x : scan A) (b : B) (r : string) :
  scan_map f x = Scanned b r -> exists a, x = Scanned a r /\ b = f a.
Proof. destruct x as [a r'| |c]; intros [= <- <-]. now exists a. Qed.

Lemma lex_string_body_shorter (n : nat) :
  forall s x r,
    String.length s <= n ->
    lex_string_body s = Scanned x r -> String.length r < String.length s.
Proof.
  induction n as [|n IH]; intros s x r Hn; (destruct s as [|c s1]; [discriminate|]);
    cbn [String.length] in Hn; [lia|].
  cbn [lex_string_body].
  destruct (Ascii.eqb c dquote); [intros [= _ <-]; cbn [String.length]; lia|].
  destruct (Ascii.eqb c "\").
  - destruct s1 as [|e s2]; [discriminate|]. cbn [String.length] in *.
    destruct (Ascii.eqb_spec e "u") as [->|Hne].
    + destruct s2 as [|h1 [|h2 [|h3 [|h4 s3]]]]; try (cbn; discriminate).
      * cbn [bad_hex]. destruct (hex_value h1); discriminate.
      * cbn [bad_hex]. destruct (hex_value h1); [|discriminate].
        destruct (hex_value h2); discriminate.
      * cbn [bad_hex]. destruct (hex_value h1); [|discriminate].
        destruct (hex_value h2); [|discriminate]. destruct (hex_value h3); discriminate.
      * cbn [String.length] in *.
        destruct (hex_value h1) eqn:H1; [|cbn [bad_hex]; rewrite H1; discriminate].
        destruct (hex_value h2) eqn:H2; [|cbn [bad_hex]; rewrite H1, H2; discriminate].
        destruct (hex_value h3) eqn:H3; [|cbn [bad_hex]; rewrite H1, H2, H3; discriminate].
        destruct (hex_value h4) eqn:H4;
          [|cbn [bad_hex]; rewrite H1, H2, H3, H4; discriminate].
        intros Hs. apply scan_map_Scanned in Hs as (a & Hs & _).
        apply IH in Hs; lia.
    + assert (Hbody : match e with
                      | "u"%char => ScanEnd
                      | _ => match unescape e with
                             | Some ch => scan_map (String ch) (lex_string_body s2)
                             | None => ScanBad e
                             end
                      end = Scanned x r -> String.length r < S (S (String.length s2))).
      { destruct (unescape e) eqn:He.
        - destruct e as [[|] [|] [|] [|] [|] [|] [|] [|]]; try discriminate He;
            try congruence;
            (intros Hs; apply scan_map_Scanned in Hs as (a' & Hs & _);
             apply IH in Hs; lia).
        - destruct e as [[|] [|] [|] [|] [|] [|] [|] [|]]; discriminate. }
      intros Hs. apply Hbody. rewrite <- Hs.
      destruct e as [[|] [|] [|] [|] [|] [|] [|] [|]]; try reflexivity.
      congruence.
  - destruct (N_of_ascii c <? 32)%N; [discriminate|].
    intros Hs. apply scan_map_Scanned in Hs as (a & Hs & _).
    cbn [String.length]. apply IH in Hs; lia.
Qed.


Lemma take_digits_length (s : string) :
  String.length (take_digits s).1 + String.length (take_digits s).2 = String.length s.
Proof.
  induction s as [|c s IH]; [reflexivity|]. cbn [take_digits].
  destruct (is_digit c); [|reflexivity].
  destruct (take_digits s) as [ds r]. cbn [fst snd String.length] in *. lia.
Qed.

Lemma lex_digits_shorter (s ds r : string) :
  lex_digits s = Scanned ds r -> String.length r < String.length s.
Proof.
  unfold lex_digits. pose proof (take_digits_length s) as Hlen.
  destruct (take_digits s) as [[|d ds'] r']; cbn [fst snd String.length] in Hlen.
  - destruct s; discriminate.
  - intros [= _ <-]. lia.
Qed.

Lemma lex_fraction_shorter (s ds r : string) :
  lex_fraction s = Scanned ds r -> String.length r <= String.length s.
Proof.
  destruct s as [|c s]; [intros [= _ <-]; lia|].
  destruct (Ascii.eqb_spec c ".") as [->|Hne].
  - cbn [lex_fraction]. intros H. apply lex_digits_shorter in H.
    cbn [String.length]. lia.
  - intros H. assert (Hr : r = String c s); [|subst r; lia].
    revert H. destruct c as [[|] [|] [|] [|] [|] [|] [|] [|]];
      try (intros [= _ <-]; reflexivity). congruence.
Qed.

Lemma lex_exponent_shorter (s r : string) (e : Z) :
  lex_exponent s = Scanned e r -> String.length r <= String.length s.
Proof.
  destruct s as [|c s]; [intros [= _ <-]; lia|].
  assert (Hexp : forall rest,
            match rest with
            | String "-" rest' =>
                scan_map (fun ds => (- Z.of_N (digits_N ds))%Z) (lex_digits rest')
            | String "+" rest' =>
                scan_map (fun ds => Z.of_N (digits_N ds)) (lex_digits rest')
            | _ => scan_map (fun ds => Z.of_N (digits_N ds)) (lex_digits rest)
            end = Scanned e r -> String.length r <= String.length rest).
  { intros [|c' rest'].
    - discriminate.
    - destruct (Ascii.eqb_spec c' "-") as [->|Hm]; [|destruct (Ascii.eqb_spec c' "+") as [->|Hp]].
      + intros H. apply scan_map_Scanned in H as (ds & H & _).
        apply lex_digits_shorter in H. cbn [String.length]. lia.
      + intros H. apply scan_map_Scanned in H as (ds & H & _).
        apply lex_digits_shorter in H. cbn [String.length]. lia.
      + intros H.
        assert (H' : scan_map (fun ds => Z.of_N (digits_N ds)) (lex_digits (String c' rest'))
                     = Scanned e r).
        { rewrite <- H. destruct c' as [[|] [|] [|] [|] [|] [|] [|] [|]];
            try reflexivity; congruence. }
        apply scan_map_Scanned in H' as (ds & H' & _).
        apply lex_digits_shorter in H'. lia. }
  destruct (Ascii.eqb_spec c "e") as [->|He]; [|destruct (Ascii.eqb_spec c "E") as [->|HE]].
  - cbn [lex_exponent]. intros H. apply Hexp in H. cbn [String.length]. lia.
  - cbn [lex_exponent]. intros H. apply Hexp in H. cbn [String.length]. lia.
  - intros H. assert (Hr : r = String c s); [|subst r; lia].
    revert H. destruct c as [[|] [|] [|] [|] [|] [|] [|] [|]];
      try (intros [= _ <-]; reflexivity); congruence.
Qed.

Lemma lex_number_shorter (s r : string) (n : number) :
  lex_number s = Scanned n r -> String.length r < String.length s.
Proof.
  assert (Hunsigned : forall negative s1,
            scan_bind
              match s1 with
              | String "0" rest => Scanned (String "0" EmptyString) rest
              | _ => lex_digits s1
              end
              (fun int_part s2 =>
                 scan_bind (lex_fraction s2) (fun fraction s3 =>
                 scan_bind (lex_exponent s3) (fun exponent s4 =>
                 Scanned (make_number negative int_part fraction exponent) s4)))
            = Scanned n r -> String.length r < String.length s1).
  { intros negative s1 H.
    assert (Hint : forall ip s2,
              match s1 with
              | String "0" rest => Scanned (String "0" EmptyString) rest
              | _ => lex_digits s1
              end = Scanned ip s2 -> String.length s2 < String.length s1).
    { intros ip s2. destruct s1 as [|c s1']; [discriminate|].
      destruct (Ascii.eqb_spec c "0") as [->|Hz].
      - intros [= _ <-]. cbn [String.length]. lia.
      - intros Hd. apply (lex_digits_shorter _ ip).
        rewrite <- Hd. destruct c as [[|] [|] [|] [|] [|] [|] [|] [|]];
          try reflexivity; congruence. }
    destruct (match s1 with
              | String "0" rest => Scanned (String "0" EmptyString) rest
              | _ => lex_digits s1
              end) as [ip s2| |c] eqn:Hip; try discriminate.
    specialize (Hint ip s2 eq_refl). cbn [scan_bind] in H.
    destruct (lex_fraction s2) as [fp s3| |c] eqn:Hfp; try discriminate.
    apply lex_fraction_shorter in Hfp. cbn [scan_bind] in H.
    destruct (lex_exponent s3) as [ex s4| |c] eqn:Hex; try discriminate.
    apply lex_exponent_shorter in Hex. cbn [scan_bind] in H.
    injection H as _ <-. lia. }
  destruct s as [|c s']; [discriminate|].
  destruct (Ascii.eqb_spec c "-") as [->|Hm].
  - intros H. apply (Hunsigned true) in H. cbn [String.length]. lia.
  - intros H. apply (Hunsigned false). rewrite <- H.
    destruct c as [[|] [|] [|] [|] [|] [|] [|] [|]]; try reflexivity; congruence.
Qed.

Lemma lex_keyword_shorter (word : string) (t t' : token) (s r : string) :
  lex_keyword word t s = Scanned t' r -> String.length r <= String.length s.
Proof.
  revert s. induction word as [|w word IH]; intros s.
  - destruct s; intros [= _ <-]; lia.
  - destruct s as [|c s]; [discriminate|]. cbn [lex_keyword].
    destruct (Ascii.eqb w c); [|discriminate].
    intros H. apply IH in H. cbn [String.length]. lia.
Qed.

Lemma next_token_shorter (s r : string) (t : token) :
  next_token s = Scanned t r -> String.length r < String.length s.
Proof.
  induction s as [|c s IH]; [discriminate|].
  intros H. cbn [String.length].
  assert (Hcases :
            next_token s = Scanned t r \/
            r = s \/
            (exists x, lex_string_body s = Scanned x r) \/
            (exists word t0, lex_keyword word t0 s = Scanned t r) \/
            (exists n, lex_number (String c s) = Scanned n r)).
  { revert H. destruct c as [[|] [|] [|] [|] [|] [|] [|] [|]];
      cbn [next_token is_whitespace is_digit orb Ascii.eqb Bool.eqb andb];
      try discriminate;
      first
        [ intros [= _ <-]; right; left; reflexivity
        | intros H; left; exact H
        | intros H; apply scan_map_Scanned in H as (x & H & _);
          first [ right; right; left; exists x; exact H
                | do 4 right; exists x; exact H ]
        | intros H; right; right; right; left; eexists _, _; exact H ]. }
  destruct Hcases as [H'|[->|[(x & H')|[(word & t0 & H')|(n & H')]]]].
  - apply IH in H'. lia.
  - lia.
  - apply (lex_string_body_shorter (String.length s)) in H'; lia.
  - apply lex_keyword_shorter in H'. lia.
  - apply lex_number_shorter in H'. cbn [String.length] in H'. lia.
Qed.


(** Every parser reads at least one character. *)
Lemma parse_shorter (fuel : nat) :
  (forall s v r, parse_value fuel s = Scanned v r -> String.length r < String.length s) /\
  (forall s vs r, parse_elements fuel s = Scanned vs r -> String.length r < String.length s) /\
  (forall s ms r, parse_members fuel s = Scanned ms r -> String.length r < String.length s).
Proof.
  induction fuel as [|fuel (IHv & IHe & IHm)]; [repeat split; discriminate|].
  repeat split.
  - intros s v r. cbn [parse_value].
    destruct (next_token s) as [t rest| |c] eqn:Ht; try discriminate.
    apply next_token_shorter in Ht. cbn [scan_bind].
    destruct t; try discriminate; try (intros [= _ <-]; exact Ht).
    + destruct (next_token rest) as [[]rest'| |c] eqn:Ht';
        try (intros H; apply scan_map_Scanned in H as (ms & H & _);
             apply IHm in H; lia).
      intros [= _ <-]. apply next_token_shorter in Ht'. lia.
    + destruct (next_token rest) as [[]rest'| |c] eqn:Ht';
        try (intros H; apply scan_map_Scanned in H as (vs & H & _);
             apply IHe in H; lia).
      intros [= _ <-]. apply next_token_shorter in Ht'. lia.
  - intros s vs r. cbn [parse_elements].
    destruct (parse_value fuel s) as [v rest| |c] eqn:Hv; try discriminate.
    apply IHv in Hv. cbn [scan_bind].
    destruct (next_token rest) as [t rest'| |c] eqn:Ht; try discriminate.
    apply next_token_shorter in Ht. cbn [scan_bind].
    destruct t; try discriminate.
    + intros [= _ <-]. lia.
    + intros H. apply scan_map_Scanned in H as (vs' & H & _). apply IHe in H. lia.
  - intros s ms r. cbn [parse_members].
    destruct (next_token s) as [tk rest| |c] eqn:Hk; try discriminate.
    apply next_token_shorter in Hk. cbn [scan_bind].
    destruct tk; try discriminate.
    destruct (next_token rest) as [tc rest1| |c] eqn:Hc; try discriminate.
    apply next_token_shorter in Hc. cbn [scan_bind].
    destruct tc; try discriminate.
    destruct (parse_value fuel rest1) as [v rest2| |c] eqn:Hv; try discriminate.
    apply IHv in Hv. cbn [scan_bind].
    destruct (next_token rest2) as [t rest3| |c] eqn:Ht; try discriminate.
    apply next_token_shorter in Ht. cbn [scan_bind].
    destruct t; try discriminate.
    + intros [= _ <-]. lia.
    + intros H. apply scan_map_Scanned in H as (ms' & H & _). apply IHm in H. lia.
Qed.

(** More fuel than twice the length of the text changes nothing. *)
Lemma parse_fuel_stable (fuel : nat) :
  (forall s fuel', 2 * String.length s < fuel -> fuel <= fuel' ->
     parse_value fuel' s = parse_value fuel s) /\
  (forall s fuel', 2 * String.length s + 1 < fuel -> fuel <= fuel' ->
     parse_elements fuel' s = parse_elements fuel s) /\
  (forall s fuel', 2 * String.length s + 1 < fuel -> fuel <= fuel' ->
     parse_members fuel' s = parse_members fuel s).
Proof.
  induction fuel as [|fuel (IHv & IHe & IHm)]; [repeat split; intros; lia|].
  repeat split; intros s [|fuel'] Hlen Hle; try lia.
  - cbn [parse_value].
    destruct (next_token s) as [t rest| |c] eqn:Ht; try reflexivity.
    apply next_token_shorter in Ht. cbn [scan_bind].
    destruct t; try reflexivity.
    + rewrite (IHm rest fuel') by lia. reflexivity.
    + rewrite (IHe rest fuel') by lia. reflexivity.
  - cbn [parse_elements]. rewrite (IHv s fuel') by lia.
    destruct (parse_value fuel s) as [v rest| |c] eqn:Hv; try reflexivity.
    apply (proj1 (parse_shorter fuel)) in Hv. cbn [scan_bind].
    destruct (next_token rest) as [t rest'| |c] eqn:Ht; try reflexivity.
    apply next_token_shorter in Ht. cbn [scan_bind].
    destruct t; try reflexivity.
    rewrite (IHe rest' fuel') by lia. reflexivity.
  - cbn [parse_members].
    destruct (next_token s) as [tk rest| |c] eqn:Hk; try reflexivity.
    apply next_token_shorter in Hk. cbn [scan_bind].
    destruct tk; try reflexivity.
    destruct (next_token rest) as [tc rest1| |c] eqn:Hc; try reflexivity.
    apply next_token_shorter in Hc. cbn [scan_bind].
    destruct tc; try reflexivity.
    rewrite (IHv rest1 fuel') by lia.
    destruct (parse_value fuel rest1) as [v rest2| |c] eqn:Hv; try reflexivity.
    apply (proj1 (parse_shorter fuel)) in Hv. cbn [scan_bind].
    destruct (next_token rest2) as [t rest3| |c] eqn:Ht; try reflexivity.
    apply next_token_shorter in Ht. cbn [scan_bind].
    destruct t; try reflexivity.
    rewrite (IHm rest3 fuel') by lia. reflexivity.
Qed.

(** [parse] reads the text with fuel to spare. *)
Lemma parse_fuel_enough (text : string) (fuel : nat) :
  S (2 * String.length text) <= fuel ->
  parse_value fuel text = parse_value (S (2 * String.length text)) text.
Proof.
  intros H. apply (proj1 (parse_fuel_stable (S (2 * String.length text)))); lia.
Qed.

End JSONFacts.

(** ** The registry *)

Section RegistryFacts.

Lemma typeof_string_or (v : value) (d : string) :
  (if String.eqb (typeof v) "string" then v else VStr d)
  = VStr match v with VStr s => s | _ => d end.
Proof. destruct v; reflexivity. Qed.

Lemma typeof_boolean_or (v : value) (d : bool) :
  (if String.eqb (typeof v) "boolean" then v else VBool d)
  = VBool match v with VBool b => b | _ => d end.
Proof. destruct v; reflexivity. Qed.

Lemma typeof_number_or (v : value) (d : number) :
  (if String.eqb (typeof v) "number" then v else VNum d)
  = VNum match v with VNum n => n | _ => d end.
Proof. destruct v; reflexivity. Qed.

Lemma get_truthy (options : value) (k : string) :
  truthy options = true -> get options k = Normal (supplied options k).
Proof. destruct options; (discriminate || reflexivity). Qed.

Lemma supplied_falsy (options : value) (k : string) :
  truthy options = false -> supplied options k = VUndefined.
Proof. destruct options; (discriminate || reflexivity). Qed.

(** [_mergeOptions] never throws and computes the merge of the
    specification. *)
Lemma mergeOptions_merge_over (self : Manager) (options : value) :
  _mergeOptions self options
  = Normal (options_object (merge_over (defaultsOptions self) options)).
Proof.
  unfold _mergeOptions, merge_over.
  destruct (truthy options) eqn:Ht; cbn [negb].
  - rewrite !(get_truthy options _ Ht). cbn [mbind completion_bind].
    rewrite typeof_string_or, !typeof_boolean_or, typeof_number_or. reflexivity.
  - rewrite !(supplied_falsy options _ Ht). reflexivity.
Qed.


Lemma is_config_inv (v : value) :
  is_config v ->
  exists c o e,
    get v "channelID" = Normal (VStr c) /\
    get v "options" = Normal o /\
    get o "emoji" = Normal (VStr e) /\
    channelID_of v = Some c /\ emoji_of v = Some e /\ pair_of v = Some (c, e).
Proof.
  intros [[c e] H]. unfold pair_of, channelID_of, emoji_of in *.
  destruct (get v "channelID") as [[ | | | |c'| | ]|] eqn:Hc; try discriminate.
  destruct (get v "options") as [o|] eqn:Ho; try discriminate.
  destruct (get o "emoji") as [[ | | | |e'| | ]|] eqn:He; try discriminate.
  exists c', o, e'. rewrite He. repeat split; reflexivity.
Qed.

Lemma is_config_truthy (v : value) : is_config v -> truthy v = true.
Proof.
  intros [p H]. destruct v; try reflexivity; discriminate.
Qed.

Lemma pair_of_config_of (self : Manager) (channel : Channel) (options : value) :
  pair_of (config_of self channel options)
  = Some (channel_id channel, emoji (merge_over (defaultsOptions self) options)).
Proof. reflexivity. Qed.

Lemma is_config_config_of (self : Manager) (channel : Channel) (options : value) :
  is_config (config_of self channel options).
Proof. eexists. apply pair_of_config_of. Qed.

Lemma channelID_of_config_of (self : Manager) (channel : Channel) (options : value) :
  channelID_of (config_of self channel options) = Some (channel_id channel).
Proof. reflexivity. Qed.

Lemma same_channel_config (channelID : string) (v : value) :
  is_config v ->
  same_channel channelID v = Normal (bool_decide (channelID_of v = Some channelID)).
Proof.
  intros Hv. destruct (is_config_inv v Hv) as (c & o & e & Hc & _ & _ & Hid & _).
  unfold same_channel.
  rewrite Hc, Hid. cbn [mbind completion_bind strict_equals]. f_equal.
  destruct (String.eqb_spec c channelID) as [->|Hne].
  - now rewrite bool_decide_eq_true_2.
  - rewrite bool_decide_eq_false_2; [reflexivity|congruence].
Qed.

Lemma other_channel_config (channelID : string) (v : value) :
  is_config v ->
  other_channel channelID v = Normal (bool_decide (channelID_of v <> Some channelID)).
Proof.
  intros Hv. destruct (is_config_inv v Hv) as (c & o & e & Hc & _ & _ & Hid & _).
  unfold other_channel.
  rewrite Hc, Hid. cbn [mbind completion_bind strict_equals]. f_equal.
  destruct (String.eqb_spec c channelID) as [->|Hne]; cbn [negb].
  - rewrite bool_decide_eq_false_2; [reflexivity|]. intros H. now apply H.
  - rewrite bool_decide_eq_true_2; [reflexivity|congruence].
Qed.

Lemma same_channel_and_emoji_config (cd v : value) :
  is_config cd -> is_config v ->
  same_channel_and_emoji cd v = Normal (bool_decide (pair_of v = pair_of cd)).
Proof.
  intros Hcd Hv.
  destruct (is_config_inv cd Hcd) as (c' & o' & e' & Hc' & Ho' & He' & _ & _ & Hp').
  destruct (is_config_inv v Hv) as (c & o & e & Hc & Ho & He & _ & _ & Hp).
  unfold same_channel_and_emoji. rewrite Hc, Hc', Hp, Hp'.
  cbn [mbind completion_bind strict_equals].
  destruct (String.eqb_spec c c') as [->|Hne].
  - rewrite Ho. cbn [mbind completion_bind]. rewrite He. cbn [mbind completion_bind].
    rewrite Ho'. cbn [mbind completion_bind]. rewrite He'.
    cbn [mbind completion_bind strict_equals]. f_equal.
    destruct (String.eqb_spec e e') as [->|Hne].
    + now rewrite bool_decide_eq_true_2.
    + rewrite bool_decide_eq_false_2; [reflexivity|congruence].
  - rewrite bool_decide_eq_false_2; [reflexivity|congruence].
Qed.

(** [find] with a callback that decides a property of configs. *)
Lemma Array_find_decide (p : value -> completion bool) (P : value -> Prop)
    `{!forall v, Decision (P v)} (l : list value) :
  Forall (fun v => p v = Normal (bool_decide (P v))) l ->
  Array_find p l = Normal (default VUndefined (snd <$> list_find P l)).
Proof.
  induction 1 as [|x l Hx _ IH]; [reflexivity|].
  cbn [Array_find list_find]. rewrite Hx. cbn [mbind completion_bind].
  destruct (decide (P x)) as [HP|HP].
  - rewrite bool_decide_eq_true_2 by exact HP. reflexivity.
  - rewrite bool_decide_eq_false_2 by exact HP. rewrite IH.
    destruct (list_find P l) as [[i y]|]; reflexivity.
Qed.

(** [filter] with a callback that decides a property of configs. *)
Lemma Array_filter_decide (p : value -> completion bool) (P : value -> Prop)
    `{!forall v, Decision (P v)} (l : list value) :
  Forall (fun v => p v = Normal (bool_decide (P v))) l ->
  Array_filter p l = Normal (filter P l).
Proof.
  induction 1 as [|x l Hx _ IH]; [reflexivity|].
  cbn [Array_filter]. rewrite Hx, IH. cbn [mbind completion_bind].
  rewrite filter_cons. destruct (decide (P x)) as [HP|HP].
  - rewrite bool_decide_eq_true_2 by exact HP. reflexivity.
  - rewrite bool_decide_eq_false_2 by exact HP. reflexivity.
Qed.

Lemma findByChannel_first (channelID : string) (registry : list value) :
  Forall is_config registry ->
  Array_find (same_channel channelID) registry
  = Normal (default VUndefined (first_of_channel channelID registry)).
Proof.
  intros H. unfold first_of_channel. apply Array_find_decide.
  eapply Forall_impl; [exact H|]. intros v. apply same_channel_config.
Qed.

Lemma find_pair_first (cd : value) (registry : list value) :
  is_config cd -> Forall is_config registry ->
  Array_find (same_channel_and_emoji cd) registry
  = Normal (default VUndefined (first_with_pair (pair_of cd) registry)).
Proof.
  intros Hcd H. unfold first_with_pair. apply Array_find_decide.
  eapply Forall_impl; [exact H|]. intros v. now apply same_channel_and_emoji_config.
Qed.

Lemma filter_other_channel (channelID : string) (registry : list value) :
  Forall is_config registry ->
  Array_filter (other_channel channelID) registry
  = Normal (filter (fun v => channelID_of v <> Some channelID) registry).
Proof.
  intros H. apply Array_filter_decide.
  eapply Forall_impl; [exact H|]. intros v. apply other_channel_config.
Qed.


(** Unfolding the sequencing of actions. *)
Lemma bind_get_this {A} (k : Manager -> Action A) (w : world) :
  (get_this ≫= k) w = k (this w) w.
Proof. reflexivity. Qed.

Lemma bind_lift_Normal {A B} (a : A) (k : A -> Action B) (w : world) :
  (lift (Normal a) ≫= k) w = k a w.
Proof. reflexivity. Qed.

Lemma bind_lift_Throw {A B} (e : js_error) (k : A -> Action B) (w : world) :
  (lift (Throw e) ≫= k) w = (Throw e, w).
Proof. reflexivity. Qed.

Lemma bind_fire_and_forget {A B} (m : Action A) (k : unit -> Action B) (w : world) :
  (fire_and_forget m ≫= k) w = k tt (m w).2.
Proof. reflexivity. Qed.

Lemma bind_set_starboards {B} (l : list value) (k : unit -> Action B) (w : world) :
  (set_starboards l ≫= k) w = k tt (set_starboards l w).2.
Proof. reflexivity. Qed.

Lemma bind_emit {B} (name : string) (payload : value) (k : unit -> Action B) (w : world) :
  (emit name payload ≫= k) w = k tt (emit name payload w).2.
Proof. reflexivity. Qed.

Lemma saveStarboard_world (data : value) (w : world) :
  (saveStarboard data w).2
  = {| this := this w;
       disk := match storage (this w), JSON.stringify (VArr (starboards (this w))) with
               | VStr p, Some text => <[p := text]> (disk w)
               | _, _ => disk w
               end |}.
Proof.
  unfold saveStarboard. rewrite bind_get_this.
  destruct w as [self files]. cbn [this disk].
  destruct (storage self); reflexivity.
Qed.

Lemma deleteStarboard_world (channelID : string) (w : world) :
  (deleteStarboard channelID w).2 = (saveStarboard VUndefined w).2.
Proof. reflexivity. Qed.

(** What [create] does on a registry of configs. *)
Lemma create_on_configs (w : world) (channel : Channel) (options : value) :
  Forall is_config (starboards (this w)) ->
  create channel options w =
  match first_with_pair (pair_of (config_of (this w) channel options))
          (starboards (this w)) with
  | Some _ => (Throw DuplicateStarboardError, w)
  | None =>
      (Normal (VBool true),
       after_mutation w
         (starboards (this w) ++ [config_of (this w) channel options])
         ("starboardCreate", config_of (this w) channel options))
  end.
Proof.
  intros Hreg. unfold create. rewrite bind_get_this.
  rewrite mergeOptions_merge_over, bind_lift_Normal.
  fold (config_of (this w) channel options).
  rewrite (find_pair_first _ _ (is_config_config_of _ _ _) Hreg), bind_lift_Normal.
  unfold first_with_pair.
  destruct (list_find _ (starboards (this w))) as [[i x]|] eqn:Hfind.
  - change (default VUndefined (snd <$> Some (i, x))) with x.
    change (snd <$> Some (i, x)) with (Some x). cbv iota.
    apply list_find_Some in Hfind as (Hi & Hx & _).
    assert (Hcfg : is_config x).
    { rewrite Forall_forall in Hreg. apply Hreg. eapply list_elem_of_lookup_2, Hi. }
    rewrite (is_config_truthy x Hcfg). reflexivity.
  - change (default VUndefined (snd <$> None)) with VUndefined.
    change (snd <$> None) with (@None value). cbv iota.
    change (truthy VUndefined) with false. cbv iota.
    rewrite bind_set_starboards, bind_fire_and_forget, saveStarboard_world, bind_emit.
    destruct w as [self files]. reflexivity.
Qed.


(** What [delete] does on a registry of configs. *)
Lemma delete_on_configs (w : world) (channelID : string) :
  Forall is_config (starboards (this w)) ->
  delete channelID w =
  match first_of_channel channelID (starboards (this w)) with
  | None => (Throw (NotFoundError channelID), w)
  | Some data =>
      (Normal (VBool true),
       after_mutation w
         (filter (fun v => channelID_of v <> Some channelID) (starboards (this w)))
         ("starboardDelete", data))
  end.
Proof.
  intros Hreg. unfold delete. rewrite bind_get_this.
  rewrite (findByChannel_first _ _ Hreg), bind_lift_Normal.
  unfold first_of_channel.
  destruct (list_find _ (starboards (this w))) as [[i x]|] eqn:Hfind.
  - change (default VUndefined (snd <$> Some (i, x))) with x.
    change (snd <$> Some (i, x)) with (Some x). cbv iota.
    apply list_find_Some in Hfind as (Hi & Hx & _).
    assert (Hcfg : is_config x).
    { rewrite Forall_forall in Hreg. apply Hreg. eapply list_elem_of_lookup_2, Hi. }
    rewrite (is_config_truthy x Hcfg). cbn [negb].
    rewrite (filter_other_channel _ _ Hreg), bind_lift_Normal.
    rewrite bind_set_starboards, bind_fire_and_forget, deleteStarboard_world,
      saveStarboard_world, bind_emit.
    destruct w as [self files]. reflexivity.
  - reflexivity.
Qed.


(** What a [create] that returns has done, on any registry. *)
Lemma create_returns_world (w w' : world) (channel : Channel) (options r : value) :
  create channel options w = (Normal r, w') ->
  r = VBool true /\
  w' = after_mutation w
         (starboards (this w) ++ [config_of (this w) channel options])
         ("starboardCreate", config_of (this w) channel options).
Proof.
  unfold create. rewrite bind_get_this, mergeOptions_merge_over, bind_lift_Normal.
  fold (config_of (this w) channel options).
  destruct (Array_find _ (starboards (this w))) as [found|e].
  - rewrite bind_lift_Normal. destruct (truthy found) eqn:Ht.
    + intros [=].
    + rewrite bind_set_starboards, bind_fire_and_forget, saveStarboard_world, bind_emit.
      destruct w as [self files]. intros [= <- <-]. split; reflexivity.
  - rewrite bind_lift_Throw. intros [=].
Qed.

(** What a [delete] that returns has done, on any registry. *)
Lemma delete_returns_world (w w' : world) (channelID : string) (r : value) :
  delete channelID w = (Normal r, w') ->
  r = VBool true /\
  exists data kept,
    Array_find (same_channel channelID) (starboards (this w)) = Normal data /\
    truthy data = true /\
    Array_filter (other_channel channelID) (starboards (this w)) = Normal kept /\
    w' = after_mutation w kept ("starboardDelete", data).
Proof.
  unfold delete. rewrite bind_get_this.
  destruct (Array_find _ (starboards (this w))) as [data|e].
  - rewrite bind_lift_Normal. destruct (truthy data) eqn:Ht; cbn [negb].
    + destruct (Array_filter _ (starboards (this w))) as [kept|e].
      * rewrite bind_lift_Normal, bind_set_starboards, bind_fire_and_forget,
          deleteStarboard_world, saveStarboard_world, bind_emit.
        destruct w as [self files]. intros [= <- <-]. split; [reflexivity|].
        exists data, kept. repeat split; reflexivity || assumption.
      * rewrite bind_lift_Throw. intros [=].
    + intros [=].
  - rewrite bind_lift_Throw. intros [=].
Qed.

(** *** The invariant of the registry *)

Lemma unique_pairs_NoDup (registry : list value) :
  NoDup (pair_of <$> registry) -> unique_pairs registry.
Proof.
  intros Hnd i j x y Hi Hj Hxy.
  apply (NoDup_lookup _ i j (pair_of x) Hnd).
  - now rewrite list_lookup_fmap, Hi.
  - now rewrite list_lookup_fmap, Hj, Hxy.
Qed.

Lemma NoDup_fmap_filter {A B} (f : A -> B) (P : A -> Prop)
    `{!forall x, Decision (P x)} (l : list A) :
  NoDup (f <$> l) -> NoDup (f <$> filter P l).
Proof.
  induction l as [|x l IH]; [intros; constructor|].
  rewrite fmap_cons, NoDup_cons. intros [Hx Hnd].
  rewrite filter_cons. destruct (decide (P x)); [|now apply IH].
  rewrite fmap_cons, NoDup_cons. split; [|now apply IH].
  intros Hin. apply Hx. apply list_elem_of_fmap in Hin as (y & -> & Hy).
  apply list_elem_of_fmap. exists y. split; [reflexivity|].
  now apply list_elem_of_filter in Hy as [_ Hy].
Qed.

Lemma run_call_invariant (c : call) (w : world) :
  Forall is_config (starboards (this w)) ->
  NoDup (pair_of <$> starboards (this w)) ->
  Forall is_config (starboards (this (run_call c w).2)) /\
  NoDup (pair_of <$> starboards (this (run_call c w).2)).
Proof.
  intros Hcfg Hnd. destruct c as [channel options|channelID]; cbn [run_call].
  - rewrite (create_on_configs w channel options Hcfg). unfold first_with_pair.
    destruct (list_find _ (starboards (this w))) as [[i x]|] eqn:Hfind;
      [split; assumption|].
    change (snd <$> None) with (@None value). cbv iota. cbn [snd after_mutation this starboards].
    split.
    + apply Forall_app. split; [exact Hcfg|].
      constructor; [apply is_config_config_of|constructor].
    + rewrite fmap_app. apply NoDup_app. split; [exact Hnd|]. split.
      * intros p Hp Hin. apply list_elem_of_fmap in Hp as (x & -> & Hx).
        rewrite list_find_None, Forall_forall in Hfind.
        apply (Hfind x Hx). cbn [fmap list_fmap] in Hin.
        now apply list_elem_of_singleton in Hin.
      * apply NoDup_singleton.
  - rewrite (delete_on_configs w channelID Hcfg).
    destruct (first_of_channel channelID (starboards (this w))) as [data|];
      [|split; assumption].
    cbn [snd after_mutation this starboards]. split.
    + apply Forall_forall. intros x Hx. apply list_elem_of_filter in Hx as [_ Hx].
      rewrite Forall_forall in Hcfg. now apply Hcfg.
    + now apply NoDup_fmap_filter.
Qed.

Lemma run_calls_invariant (cs : list call) (w : world) :
  Forall is_config (starboards (this w)) ->
  NoDup (pair_of <$> starboards (this w)) ->
  Forall is_config (starboards (this (run_calls cs w))) /\
  NoDup (pair_of <$> starboards (this (run_calls cs w))).
Proof.
  revert w. induction cs as [|c cs IH]; intros w Hcfg Hnd; [split; assumption|].
  cbn [run_calls]. destruct (run_call_invariant c w Hcfg Hnd) as [Hcfg' Hnd'].
  now apply IH.
Qed.


(** *** Loading *)

(** [getAllStarboards] when no file is at the storage path. *)
Lemma getAllStarboards_absent (w : world) (p : string) :
  storage (this w) = VStr p ->
  disk w !! p = None ->
  getAllStarboards w
  = (Normal [], {| this := this w; disk := <[p := "[]"]> (disk w) |}).
Proof.
  intros Hp Hfile. unfold getAllStarboards. rewrite bind_get_this.
  unfold existsAsync, writeFileAsync, mbind, Action_bind.
  rewrite Hp, Hfile. rewrite bool_decide_eq_false_2 by (intros [? [=]]). reflexivity.
Qed.

(** [getAllStarboards] on a file, by what [JSON.parse] makes of its text. *)
Lemma getAllStarboards_present (w : world) (p text : string) :
  storage (this w) = VStr p ->
  disk w !! p = Some text ->
  getAllStarboards w =
  match JSON.parse text with
  | Normal (VArr items) => (Normal items, w)
  | Normal _ =>
      (Throw (JsSyntaxError
                "The storage file is not properly formatted (giveaways is not an array)."), w)
  | Throw e =>
      (Throw (if String.eqb (message e) "Unexpected end of JSON input"
              then JsSyntaxError
                     "The storage file is not properly formatted (Unexpected end of JSON input)."
              else e), w)
  end.
Proof.
  intros Hp Hfile. unfold getAllStarboards. rewrite bind_get_this.
  unfold existsAsync, readFileAsync, try_catch, mbind, Action_bind, lift, throw.
  rewrite Hp. rewrite bool_decide_eq_true_2 by eauto. cbn [negb]. rewrite Hfile.
  destruct (JSON.parse text) as [[ | | b | n | s | items | fields]|e]; try reflexivity.
  cbn [message]. destruct (String.eqb (message e) _); reflexivity.
Qed.

(** [getAllStarboards] on a manager whose storage location is a boolean:
    nothing exists there and nothing can be written there. *)
Lemma getAllStarboards_on_flag (w : world) (b : bool) :
  storage (this w) = VBool b ->
  getAllStarboards w = (Throw invalid_path, w).
Proof.
  intros Hb. unfold getAllStarboards. rewrite bind_get_this.
  unfold existsAsync, writeFileAsync, mbind, Action_bind.
  rewrite Hb. reflexivity.
Qed.

(** A call either leaves the world as it was or is a mutation of it. *)
Lemma run_call_world (c : call) (w : world) :
  (run_call c w).2 = w \/
  exists registry event, (run_call c w).2 = after_mutation w registry event.
Proof.
  destruct (run_call c w) as [[r|e] w'] eqn:Hrun; cbn [snd].
  - right. destruct c as [channel options|channelID]; cbn [run_call] in Hrun.
    + apply create_returns_world in Hrun as [_ ->]. eauto.
    + apply delete_returns_world in Hrun as (_ & data & kept & _ & _ & _ & ->). eauto.
  - left. destruct c as [channel options|channelID]; cbn [run_call] in Hrun.
    + revert Hrun. unfold create.
      rewrite bind_get_this, mergeOptions_merge_over, bind_lift_Normal.
      destruct (Array_find _ (starboards (this w))) as [found|e'];
        [rewrite bind_lift_Normal|rewrite bind_lift_Throw; now intros [= _ <-]].
      destruct (truthy found); [now intros [= _ <-]|].
      rewrite bind_set_starboards, bind_fire_and_forget, saveStarboard_world, bind_emit.
      intros [=].
    + revert Hrun. unfold delete. rewrite bind_get_this.
      destruct (Array_find _ (starboards (this w))) as [data|e'];
        [rewrite bind_lift_Normal|rewrite bind_lift_Throw; now intros [= _ <-]].
      destruct (truthy data); cbn [negb]; [|now intros [= _ <-]].
      destruct (Array_filter _ (starboards (this w))) as [kept|e'];
        [rewrite bind_lift_Normal|rewrite bind_lift_Throw; now intros [= _ <-]].
      rewrite bind_set_starboards, bind_fire_and_forget, deleteStarboard_world,
        saveStarboard_world, bind_emit.
      intros [=].
Qed.


(** [_init], not awaited, on a storage file that parses to an array. *)
Lemma init_loads (w : world) (p text : string) (items : list value) :
  storage (this w) = VStr p ->
  disk w !! p = Some text ->
  JSON.parse text = Normal (VArr items) ->
  (fire_and_forget _init w).2 = (set_starboards items w).2.
Proof.
  intros Hp Hfile Hparse. unfold fire_and_forget, _init.
  pose proof (getAllStarboards_present w p text Hp Hfile) as Hget.
  rewrite Hparse in Hget.
  unfold mbind at 1. unfold Action_bind. now rewrite Hget.
Qed.

(** [_init], not awaited, on a boolean storage location. *)
Lemma init_on_flag (w : world) (b : bool) :
  storage (this w) = VBool b -> (fire_and_forget _init w).2 = w.
Proof.
  intros Hb. unfold fire_and_forget, _init.
  unfold mbind at 1. unfold Action_bind.
  now rewrite (getAllStarboards_on_flag w b Hb).
Qed.

(** [getAllStarboards] touches no field of the instance. *)
Lemma getAllStarboards_this (w : world) : this (getAllStarboards w).2 = this w.
Proof.
  destruct (storage (this w)) as [ | | b | n | s | l | f] eqn:Hs;
    try (unfold getAllStarboards; rewrite bind_get_this;
         unfold existsAsync, writeFileAsync, mbind, Action_bind;
         rewrite Hs; reflexivity).
  destruct (disk w !! s) as [text|] eqn:Hfile.
  - rewrite (getAllStarboards_present w s text Hs Hfile).
    destruct (JSON.parse text) as [[ | | ? | ? | ? | ? | ?]|]; reflexivity.
  - now rewrite (getAllStarboards_absent w s Hs Hfile).
Qed.

(** [_init] leaves the storage location alone. *)
Lemma init_storage (w : world) :
  storage (this (fire_and_forget _init w).2) = storage (this w).
Proof.
  unfold fire_and_forget, _init. unfold mbind at 1. unfold Action_bind.
  pose proof (getAllStarboards_this w) as Ht.
  destruct (getAllStarboards w) as [[items|e] w']; cbn [snd] in *;
    cbn [set_starboards snd this storage]; now rewrite Ht.
Qed.

Lemma constructor_computes (defaults : StarBoardCreateOptions) (client : Client)
    (options : value) (files : gmap string string) :
  options <> VNull ->
  constructor defaults (Some client) options files
  = Normal (fire_and_forget _init
              {| this := {| starboards := [];
                            defaultsOptions := defaults;
                            storage := storage_of_spec options;
                            emitted := [] |};
                 disk := files |}).2.
Proof.
  intros Hnull. unfold constructor, storage_option, storage_of_spec.
  destruct options as [ | | b | n | s | l | fields];
    cbn [get supplied mbind completion_bind default lookup_field];
    try congruence; try reflexivity.
  destruct (default VUndefined (lookup_field "storage" fields)); reflexivity.
Qed.

Lemma constructor_storage (defaults : StarBoardCreateOptions) (client : Client)
    (options : value) (files : gmap string string) (w : world) :
  constructor defaults (Some client) options files = Normal w ->
  storage (this w) = storage_of_spec options /\
  w = (fire_and_forget _init
         {| this := {| starboards := [];
                       defaultsOptions := defaults;
                       storage := storage_of_spec options;
                       emitted := [] |};
            disk := files |}).2.
Proof.
  intros Hnew.
  assert (Hnull : options <> VNull) by (intros ->; discriminate Hnew).
  rewrite (constructor_computes defaults client options files Hnull) in Hnew.
  assert (Hw : w = (fire_and_forget _init
                      {| this := {| starboards := [];
                                    defaultsOptions := defaults;
                                    storage := storage_of_spec options;
                                    emitted := [] |};
                         disk := files |}).2) by congruence.
  split; [|exact Hw]. rewrite Hw. apply init_storage.
Qed.

(** *** Storable registries *)




(** [_init], not awaited, on a storage file that does not hold an array:
    the rejection is dropped and the world stays as it was. *)
Lemma init_on_malformed (w : world) (p text : string) :
  storage (this w) = VStr p ->
  disk w !! p = Some text ->
  (forall items, JSON.parse text <> Normal (VArr items)) ->
  (fire_and_forget _init w).2 = w.
Proof.
  intros Hp Hfile Hbad. unfold fire_and_forget, _init.
  unfold mbind at 1. unfold Action_bind.
  rewrite (getAllStarboards_present w p text Hp Hfile).
  destruct (JSON.parse text) as [[ | | ? | ? | ? | items | ?]|e]; try reflexivity.
  now destruct (Hbad items).
Qed.

End RegistryFacts.

(** ** Properties of the registry *)

(** C1.  Starting from an empty registry, after any sequence of [create]
    and [delete] calls (failed ones included) no two entries of the
    registry share a (channelId, emoji) pair, every entry carries such a
    pair, and the check is made by [create]: a call that would add a pair
    already there throws and changes nothing. *)
Theorem registry_pairs_stay_unique (w : world) (cs : list call) :
  starboards (this w) = [] ->
  unique_pairs (starboards (this (run_calls cs w))) /\
  Forall is_config (starboards (this (run_calls cs w))) /\
  forall channel options i x,
    starboards (this (run_calls cs w)) !! i = Some x ->
    pair_of x = pair_of (config_of (this (run_calls cs w)) channel options) ->
    create channel options (run_calls cs w)
    = (Throw DuplicateStarboardError, run_calls cs w).
Proof.
  intros Hempty.
  destruct (run_calls_invariant cs w) as [Hcfg Hnd].
  { rewrite Hempty. constructor. }
  { rewrite Hempty. constructor. }
  split; [now apply unique_pairs_NoDup|]. split; [exact Hcfg|].
  intros channel options i x Hi Hpair.
  rewrite (create_on_configs _ channel options Hcfg). unfold first_with_pair.
  destruct (list_find _ _) as [[j y]|] eqn:Hfind; [reflexivity|].
  rewrite list_find_None, Forall_forall in Hfind.
  exfalso. apply (Hfind x); [|exact Hpair]. eapply list_elem_of_lookup_2, Hi.
Qed.

Lemma registry_pairs_stay_unique_witness :
  starboards (this example_world) = [] /\
  unique_pairs (starboards (this (run_calls
    (example_calls ++ [Create general VUndefined; Delete "1002"]) example_world))).
Proof.
  split; [reflexivity|].
  apply (registry_pairs_stay_unique example_world
           (example_calls ++ [Create general VUndefined; Delete "1002"])).
  reflexivity.
Defined.

(** C2.  On a registry of configs, a [create] whose (channelId, emoji)
    pair is already carried by an entry throws the duplicate error and
    leaves the world as it was: the list, the disk and the log of emitted
    events. *)
Theorem create_duplicate_fails (w : world) (channel : Channel) (options : value)
    (i : nat) (x : value) :
  Forall is_config (starboards (this w)) ->
  starboards (this w) !! i = Some x ->
  pair_of x = pair_of (config_of (this w) channel options) ->
  create channel options w = (Throw DuplicateStarboardError, w).
Proof.
  intros Hcfg Hi Hpair.
  rewrite (create_on_configs _ channel options Hcfg). unfold first_with_pair.
  destruct (list_find _ _) as [[j y]|] eqn:Hfind; [reflexivity|].
  rewrite list_find_None, Forall_forall in Hfind.
  exfalso. apply (Hfind x); [|exact Hpair]. eapply list_elem_of_lookup_2, Hi.
Qed.

Lemma create_duplicate_fails_witness :
  create general (VObj [("emoji", VStr "🔥")]) example_registry_world
  = (Throw DuplicateStarboardError, example_registry_world).
Proof.
  apply (create_duplicate_fails example_registry_world general
           (VObj [("emoji", VStr "🔥")]) 1
           (config_of (this example_world) general fire_options)).
  - repeat constructor; eexists; reflexivity.
  - reflexivity.
  - reflexivity.
Defined.

(** C3.  On a registry of configs: when no entry belongs to the channel,
    [delete] throws the not-found error and leaves the world as it was;
    when an entry does, [delete] returns, after it the lookup of the channel
    finds nothing, the storage file (when the storage location is a path)
    holds the text of the new list, and [starboardDelete] is emitted, once,
    after the events emitted before. *)
Theorem delete_not_found_or_removed (w : world) (channelID : string) :
  Forall is_config (starboards (this w)) ->
  ((forall i x, starboards (this w) !! i = Some x -> channelID_of x <> Some channelID) ->
   delete channelID w = (Throw (NotFoundError channelID), w)) /\
  (forall i x,
     starboards (this w) !! i = Some x -> channelID_of x = Some channelID ->
     exists w' data,
       delete channelID w = (Normal (VBool true), w') /\
       findByChannel channelID w' = (Normal VUndefined, w') /\
       (forall p, storage (this w) = VStr p ->
          disk w' !! p = registry_text (this w') /\ is_Some (disk w' !! p)) /\
       emitted (this w') = emitted (this w) ++ [("starboardDelete", data)]).
Proof.
  intros Hcfg. rewrite (delete_on_configs w channelID Hcfg). unfold first_of_channel.
  split.
  - intros Hnone.
    destruct (list_find _ _) as [[j y]|] eqn:Hfind; [|reflexivity].
    apply list_find_Some in Hfind as (Hj & Hy & _).
    exfalso. exact (Hnone j y Hj Hy).
  - intros i x Hi Hx.
    destruct (list_find _ _) as [[j y]|] eqn:Hfind.
    + change (snd <$> Some (j, y)) with (Some y). cbv iota.
      eexists _, y. split; [reflexivity|]. split; [|split].
      * unfold findByChannel. rewrite bind_get_this. cbn [after_mutation this starboards].
        rewrite findByChannel_first.
        -- unfold first_of_channel.
           destruct (list_find _ (filter _ _)) as [[k z]|] eqn:Hfind'; [|reflexivity].
           apply list_find_Some in Hfind' as (Hk & Hz & _).
           apply list_elem_of_lookup_2, list_elem_of_filter in Hk as [Hne _].
           contradiction.
        -- apply Forall_forall. intros z Hz. apply list_elem_of_filter in Hz as [_ Hz].
           rewrite Forall_forall in Hcfg. now apply Hcfg.
      * intros p Hp. unfold registry_text. cbn [after_mutation this disk starboards].
        rewrite Hp, stringify_array, lookup_insert_eq. split; [reflexivity|eauto].
      * reflexivity.
    + rewrite list_find_None, Forall_forall in Hfind.
      exfalso. apply (Hfind x); [|exact Hx]. eapply list_elem_of_lookup_2, Hi.
Qed.

Lemma delete_not_found_or_removed_witness :
  delete "9999" example_registry_world
  = (Throw (NotFoundError "9999"), example_registry_world) /\
  exists w' data,
    delete "1001" example_registry_world = (Normal (VBool true), w') /\
    findByChannel "1001" w' = (Normal VUndefined, w') /\
    (forall p, storage (this example_registry_world) = VStr p ->
       disk w' !! p = registry_text (this w') /\ is_Some (disk w' !! p)) /\
    emitted (this w')
    = emitted (this example_registry_world) ++ [("starboardDelete", data)].
Proof.
  assert (Hcfg : Forall is_config (starboards (this example_registry_world))).
  { repeat constructor; eexists; reflexivity. }
  destruct (delete_not_found_or_removed example_registry_world "9999" Hcfg) as [Hnone _].
  destruct (delete_not_found_or_removed example_registry_world "1001" Hcfg) as [_ Hsome].
  split.
  - apply Hnone. intros [|[|[|i]]] x [= <-]; discriminate.
  - apply (Hsome 0 (config_of (this example_world) general VUndefined)); reflexivity.
Defined.

(** C10.  When a channel has several entries, one [delete] removes them
    all and emits a single [starboardDelete], whose payload is the first of
    them in list order: with the registry split as [before ++ data :: rest],
    no entry of [before] being of the channel and [data] being of it, the
    call leaves [before] and the entries of [rest] that belong to other
    channels, and adds exactly the event carrying [data] to the log. *)
Theorem delete_removes_all_emits_first (w : world) (channelID : string)
    (before rest : list value) (data : value) :
  Forall is_config (starboards (this w)) ->
  starboards (this w) = before ++ data :: rest ->
  Forall (fun x => channelID_of x <> Some channelID) before ->
  channelID_of data = Some channelID ->
  exists w',
    delete channelID w = (Normal (VBool true), w') /\
    starboards (this w')
    = before ++ filter (fun x => channelID_of x <> Some channelID) rest /\
    Forall (fun x => channelID_of x <> Some channelID) (starboards (this w')) /\
    emitted (this w') = emitted (this w) ++ [("starboardDelete", data)].
Proof.
  intros Hcfg Hsplit Hbefore Hdata.
  rewrite (delete_on_configs w channelID Hcfg). unfold first_of_channel.
  assert (Hfind : list_find (fun v => channelID_of v = Some channelID) (starboards (this w))
                  = Some (length before, data)).
  { apply list_find_Some. rewrite Hsplit. split; [|split].
    - now rewrite list_lookup_middle.
    - exact Hdata.
    - intros j y Hj Hlt. rewrite lookup_app_l in Hj by exact Hlt.
      rewrite Forall_forall in Hbefore. apply Hbefore.
      eapply list_elem_of_lookup_2, Hj. }
  rewrite Hfind. change (snd <$> Some (length before, data)) with (Some data). cbv iota.
  eexists. split; [reflexivity|]. cbn [after_mutation this starboards emitted].
  split; [|split; [|reflexivity]].
  - rewrite Hsplit, filter_app.
    rewrite filter_cons_False; [|intros H; apply H; exact Hdata].
    f_equal. clear Hsplit Hfind. induction Hbefore as [|y before Hy _ IH]; [reflexivity|].
    rewrite filter_cons_True by exact Hy. now rewrite IH.
  - apply Forall_forall. intros y Hy. now apply list_elem_of_filter in Hy as [Hy _].
Qed.

Lemma delete_removes_all_emits_first_witness :
  exists w',
    delete "1001" (run_calls [Create memes VUndefined; Create general VUndefined;
                              Create general fire_options] example_world)
    = (Normal (VBool true), w') /\
    starboards (this w') = [config_of (this example_world) memes VUndefined] /\
    emitted (this w')
    = emitted (this (run_calls [Create memes VUndefined; Create general VUndefined;
                                Create general fire_options] example_world))
      ++ [("starboardDelete", config_of (this example_world) general VUndefined)].
Proof.
  destruct (delete_removes_all_emits_first
              (run_calls [Create memes VUndefined; Create general VUndefined;
                          Create general fire_options] example_world)
              "1001"
              [config_of (this example_world) memes VUndefined]
              [config_of (this example_world) general fire_options]
              (config_of (this example_world) general VUndefined))
    as (w' & Hdel & Hlist & _ & Hlog).
  - repeat constructor; eexists; reflexivity.
  - reflexivity.
  - repeat constructor. discriminate.
  - reflexivity.
  - exists w'. split; [exact Hdel|]. split; [|exact Hlog].
    rewrite Hlist. reflexivity.
Defined.

(** C4.  With a path as storage location, [getAllStarboards] does one of
    three things.  When no file is there, it writes the text of the empty
    array and returns the empty list.  When the file parses to an array, it
    returns the elements of that array and leaves the disk alone.  In every
    other case (the text does not parse, or parses to something that is not an
    array) it throws a [SyntaxError], the storage format error, and returns no
    list. *)
Theorem getAllStarboards_cases (w : world) (p : string) :
  storage (this w) = VStr p ->
  match disk w !! p with
  | None =>
      getAllStarboards w
      = (Normal [], {| this := this w; disk := <[p := "[]"]> (disk w) |})
  | Some text =>
      match JSON.parse text with
      | Normal (VArr items) => getAllStarboards w = (Normal items, w)
      | _ => exists e, getAllStarboards w = (Throw e, w) /\ is_StorageFormatError e
      end
  end.
Proof.
  intros Hp. destruct (disk w !! p) as [text|] eqn:Hfile.
  - rewrite (getAllStarboards_present w p text Hp Hfile).
    destruct (JSON.parse text) as [[ | | b | n | s | items | fields]|e] eqn:Hparse;
      try reflexivity;
      try (eexists; split; [reflexivity|eexists; reflexivity]).
    destruct (parse_throws_SyntaxError text e Hparse) as [m ->].
    destruct (String.eqb _ _); eexists; (split; [reflexivity|eexists; reflexivity]).
  - now apply getAllStarboards_absent.
Qed.

Lemma getAllStarboards_cases_witness :
  storage (this example_world) = VStr "./starboards.json" /\
  getAllStarboards example_world
  = (Normal [], {| this := this example_world;
                   disk := <["./starboards.json" := "[]"]> (disk example_world) |}).
Proof.
  split; [reflexivity|].
  exact (getAllStarboards_cases example_world "./starboards.json" eq_refl).
Defined.

Example truncated_storage_file :
  (getAllStarboards {| this := this example_world; disk := truncated_disk |}).1
  = Throw (JsSyntaxError
             "The storage file is not properly formatted (Unexpected end of JSON input).").
Proof. vm_compute. reflexivity. Qed.

Example storage_file_not_an_array :
  (getAllStarboards
     {| this := this example_world; disk := {["./starboards.json" := "{}"]} |}).1
  = Throw (JsSyntaxError
             "The storage file is not properly formatted (giveaways is not an array).").
Proof. vm_compute. reflexivity. Qed.


Example merge_wrong_types :
  merge_over example_defaults fire_options
  = {| emoji := "🔥"; starBotMsg := true; selfStar := false; threshold := Int 3 |}.
Proof. reflexivity. Qed.

(** C6.  A [create] or [delete] that returns, on a manager whose storage
    location is a path, has overwritten the file at that path with the text
    of the whole list as it is in memory after the call; no other file is
    touched. *)
Theorem mutation_overwrites_store (c : call) (w w' : world) (r : value) (p : string) :
  storage (this w) = VStr p ->
  run_call c w = (Normal r, w') ->
  exists text,
    JSON.stringify (VArr (starboards (this w'))) = Some text /\
    disk w' = <[p := text]> (disk w).
Proof.
  intros Hp Hrun. eexists. split; [apply stringify_array|].
  destruct c as [channel options|channelID]; cbn [run_call] in Hrun.
  - apply create_returns_world in Hrun as [_ ->].
    cbn [after_mutation this disk starboards]. now rewrite Hp.
  - apply delete_returns_world in Hrun as (_ & data & kept & _ & _ & _ & ->).
    cbn [after_mutation this disk starboards]. now rewrite Hp.
Qed.

Lemma mutation_overwrites_store_witness :
  exists text,
    JSON.stringify (VArr (starboards (this (run_call (Delete "1001") example_registry_world).2)))
    = Some text /\
    disk (run_call (Delete "1001") example_registry_world).2
    = <["./starboards.json" := text]> (disk example_registry_world).
Proof.
  apply (mutation_overwrites_store (Delete "1001") example_registry_world
           (run_call (Delete "1001") example_registry_world).2 (VBool true)
           "./starboards.json"); vm_compute; reflexivity.
Defined.

(** C8, as the claim states it, fails: the value [create] returns is the
    boolean [true], not the config it has built, and the value [delete]
    returns is [true], not the config it has removed. *)
Lemma create_returns_true_not_config :
  (create general VUndefined example_world).1 = Normal (VBool true) /\
  (create general VUndefined example_world).1
  <> Normal (config_of (this example_world) general VUndefined) /\
  (delete "1002" example_registry_world).1 = Normal (VBool true) /\
  (delete "1002" example_registry_world).1
  <> Normal (config_of (this example_world) memes VNull).
Proof. repeat split; (reflexivity || discriminate). Qed.

(** C8, amended.  A [create] or [delete] that returns, returns [true].
    The config [create] has built is the entry it appends to the registry
    and the payload of the [starboardCreate] it emits; the config [delete]
    has found, the first of the channel, is the payload of the
    [starboardDelete] it emits. *)
Theorem mutation_returns_true (c : call) (w w' : world) (r : value) :
  run_call c w = (Normal r, w') ->
  r = VBool true /\
  match c with
  | Create channel options =>
      starboards (this w') = starboards (this w) ++ [config_of (this w) channel options] /\
      emitted (this w')
      = emitted (this w) ++ [("starboardCreate", config_of (this w) channel options)]
  | Delete channelID =>
      exists data,
        Array_find (same_channel channelID) (starboards (this w)) = Normal data /\
        truthy data = true /\
        emitted (this w') = emitted (this w) ++ [("starboardDelete", data)]
  end.
Proof.
  destruct c as [channel options|channelID]; cbn [run_call]; intros Hrun.
  - apply create_returns_world in Hrun as [-> ->]. repeat split.
  - apply delete_returns_world in Hrun as (-> & data & kept & Hfind & Ht & _ & ->).
    split; [reflexivity|]. exists data. repeat split; assumption.
Qed.

Lemma mutation_returns_true_witness :
  VBool true = VBool true /\
  starboards (this (create memes fire_options example_registry_world).2)
  = starboards (this example_registry_world)
    ++ [config_of (this example_registry_world) memes fire_options] /\
  emitted (this (create memes fire_options example_registry_world).2)
  = emitted (this example_registry_world)
    ++ [("starboardCreate", config_of (this example_registry_world) memes fire_options)].
Proof.
  apply (mutation_returns_true (Create memes fire_options) example_registry_world
           (create memes fire_options example_registry_world).2 (VBool true)).
  vm_compute. reflexivity.
Defined.

(** C9.  The manager a successful constructor call builds has, as storage
    location, the [storage] option when that is a boolean or a string, and
    the file name [./starboards.json] for every other options argument (the
    call returns for every options argument but [null], whose [storage]
    cannot be read).  With a boolean, persistence is off: the constructor
    leaves the disk as it found it, and so does every later [create] or
    [delete]. *)
Theorem constructor_storage_option (defaults : StarBoardCreateOptions) (client : Client)
    (options : value) (files : gmap string string) (w : world) :
  constructor defaults (Some client) options files = Normal w ->
  storage (this w) = storage_of_spec options /\
  forall b, storage (this w) = VBool b ->
    disk w = files /\ forall c, disk (run_call c w).2 = disk w.
Proof.
  intros Hnew. destruct (constructor_storage _ _ _ _ _ Hnew) as [Hs Hw].
  split; [exact Hs|]. intros b Hb. split.
  - rewrite Hw, init_on_flag with (b := b); [reflexivity|].
    cbn [this storage]. now rewrite <- Hs.
  - intros c. destruct (run_call_world c w) as [->|(registry & event & ->)];
      [reflexivity|].
    cbn [after_mutation disk]. now rewrite Hb.
Qed.

Lemma constructor_storage_option_witness :
  constructor example_defaults (Some DiscordClient)
    (VObj [("storage", VBool false)]) ∅ = Normal unsaved_world /\
  storage (this unsaved_world) = VBool false /\
  disk unsaved_world = ∅ /\
  disk (run_call (Create general VUndefined) unsaved_world).2 = disk unsaved_world.
Proof.
  assert (Hnew : constructor example_defaults (Some DiscordClient)
                   (VObj [("storage", VBool false)]) ∅ = Normal unsaved_world)
    by (vm_compute; reflexivity).
  destruct (constructor_storage_option example_defaults DiscordClient
              (VObj [("storage", VBool false)]) ∅ unsaved_world Hnew) as [Hs Hoff].
  destruct (Hoff false Hs) as [Hdisk Hcalls].
  split; [exact Hnew|]. split; [exact Hs|]. split; [exact Hdisk|apply Hcalls].
Defined.



(** ** Further properties of the constructor *)

(** X2.  When the storage file does not hold an array, the constructor
    still returns a manager: the rejection of [_init], which nothing awaits, is not
    thrown to the caller; the registry of that manager is empty and the file
    is left as it is. *)
Theorem constructor_drops_load_error (defaults : StarBoardCreateOptions)
    (client : Client) (options : value) (files : gmap string string)
    (p text : string) :
  options <> VNull ->
  storage_of_spec options = VStr p ->
  files !! p = Some text ->
  (forall items, JSON.parse text <> Normal (VArr items)) ->
  constructor defaults (Some client) options files
  = Normal {| this := {| starboards := [];
                         defaultsOptions := defaults;
                         storage := VStr p;
                         emitted := [] |};
              disk := files |}.
Proof.
  intros Hnull Hs Hfile Hbad.
  rewrite (constructor_computes defaults client options files Hnull), Hs.
  rewrite (init_on_malformed _ p text); [reflexivity|reflexivity|exact Hfile|exact Hbad].
Qed.

Lemma constructor_drops_load_error_witness :
  constructor example_defaults (Some DiscordClient) VUndefined truncated_disk
  = Normal {| this := this example_world; disk := truncated_disk |}.
Proof.
  apply (constructor_drops_load_error example_defaults DiscordClient VUndefined
           truncated_disk "./starboards.json"
           (String.substring 0 60
              (default EmptyString (registry_text (this example_registry_world))))).
  - discriminate.
  - reflexivity.
  - reflexivity.
  - intros items. vm_compute. discriminate.
Defined.

(** ** The listener of [channelDelete], and what steps do in general *)

Section StepFacts.

(** An entry [find] has returned for a channel carries that channel as a
    string: the branch of [channelDelete_listener] for another kind of
    value is never taken. *)
Lemma found_channelID (channelID : string) (l : list value) (x : value) :
  Array_find (same_channel channelID) l = Normal x ->
  truthy x = true ->
  get x "channelID" = Normal (VStr channelID).
Proof.
  induction l as [|a l IH]; cbn [Array_find].
  - intros [= <-]. discriminate.
  - destruct (same_channel channelID a) as [[|]|e] eqn:Ha; cbn [mbind completion_bind];
      [|exact IH|discriminate].
    intros [= <-] _. revert Ha. unfold same_channel.
    destruct (get a "channelID") as [c|e]; cbn [mbind completion_bind]; [|discriminate].
    destruct c; cbn [strict_equals]; try discriminate.
    intros [= Heq]. apply String.eqb_eq in Heq. now subst.
Qed.

(** The listener, on any registry: nothing when [find] finds nothing,
    [delete] of the channel when it finds an entry. *)
Lemma channelDelete_listener_computes (channel : Channel) (w : world) :
  channelDelete_listener channel w =
  match Array_find (same_channel (channel_id channel)) (starboards (this w)) with
  | Normal x =>
      if truthy x then delete (channel_id channel) w else (Normal VUndefined, w)
  | Throw e => (Throw e, w)
  end.
Proof.
  unfold channelDelete_listener. rewrite bind_get_this.
  destruct (Array_find _ (starboards (this w))) as [x|e] eqn:Hfind;
    [rewrite bind_lift_Normal|now rewrite bind_lift_Throw].
  destruct (truthy x) eqn:Ht; [|reflexivity].
  now rewrite (found_channelID _ _ _ Hfind Ht), bind_lift_Normal.
Qed.

(** A call that throws leaves the world as it was. *)
Lemma run_call_throws (c : call) (w w' : world) (e : js_error) :
  run_call c w = (Throw e, w') -> w' = w.
Proof.
  destruct c as [channel options|channelID]; cbn [run_call].
  - unfold create. rewrite bind_get_this, mergeOptions_merge_over, bind_lift_Normal.
    destruct (Array_find _ (starboards (this w))) as [found|e'];
      [rewrite bind_lift_Normal|rewrite bind_lift_Throw; now intros [= _ <-]].
    destruct (truthy found); [now intros [= _ <-]|].
    rewrite bind_set_starboards, bind_fire_and_forget, saveStarboard_world, bind_emit.
    intros [=].
  - unfold delete. rewrite bind_get_this.
    destruct (Array_find _ (starboards (this w))) as [data|e'];
      [rewrite bind_lift_Normal|rewrite bind_lift_Throw; now intros [= _ <-]].
    destruct (truthy data); cbn [negb]; [|now intros [= _ <-]].
    destruct (Array_filter _ (starboards (this w))) as [kept|e'];
      [rewrite bind_lift_Normal|rewrite bind_lift_Throw; now intros [= _ <-]].
    rewrite bind_set_starboards, bind_fire_and_forget, deleteStarboard_world,
      saveStarboard_world, bind_emit.
    intros [=].
Qed.

Lemma Array_filter_elem_of (p : value -> completion bool) (l kept : list value) :
  Array_filter p l = Normal kept -> forall x, x ∈ kept -> x ∈ l.
Proof.
  revert kept. induction l as [|a l IH]; cbn [Array_filter]; intros kept.
  - intros [= <-] x Hx. exact Hx.
  - destruct (p a) as [b|e]; cbn [mbind completion_bind]; [|discriminate].
    destruct (Array_filter p l) as [kept'|e]; cbn [mbind completion_bind]; [|discriminate].
    intros [= <-] x Hx. destruct b.
    + apply elem_of_cons in Hx as [->|Hx]; [left|right; now apply (IH kept')].
    + right. now apply (IH kept').
Qed.

(** What a step can do to the world: nothing, append the config [create]
    has built, or keep some of the entries. *)
Lemma run_step_cases (s : step) (w : world) :
  (run_step s w).2 = w \/
  (exists channel options event,
     s = Called (Create channel options) /\
     (run_step s w).2
     = after_mutation w
         (starboards (this w) ++ [config_of (this w) channel options]) event) \/
  (exists kept event,
     (forall x, x ∈ kept -> x ∈ starboards (this w)) /\
     (run_step s w).2 = after_mutation w kept event).
Proof.
  assert (Hdelete : forall channelID,
            (delete channelID w).2 = w \/
            exists kept event,
              (forall x, x ∈ kept -> x ∈ starboards (this w)) /\
              (delete channelID w).2 = after_mutation w kept event).
  { intros channelID. destruct (delete channelID w) as [[r|e] w'] eqn:Hrun; cbn [snd].
    - right. apply delete_returns_world in Hrun as (_ & data & kept & _ & _ & Hkept & ->).
      exists kept. eexists. split; [|reflexivity].
      exact (Array_filter_elem_of _ _ _ Hkept).
    - left. exact (run_call_throws (Delete channelID) w w' e Hrun). }
  destruct s as [[channel options|channelID]|channel]; cbn [run_step run_call].
  - destruct (create channel options w) as [[r|e] w'] eqn:Hrun; cbn [snd].
    + right. left. apply create_returns_world in Hrun as [_ ->].
      exists channel, options. eexists. split; reflexivity.
    + left. exact (run_call_throws (Create channel options) w w' e Hrun).
  - destruct (Hdelete channelID) as [H|H]; [left|right; right]; exact H.
  - rewrite channelDelete_listener_computes.
    destruct (Array_find _ (starboards (this w))) as [x|e]; [|left; reflexivity].
    destruct (truthy x); [|left; reflexivity].
    destruct (Hdelete (channel_id channel)) as [H|H]; [left|right; right]; exact H.
Qed.


Lemma run_step_storage (s : step) (w : world) :
  storage (this (run_step s w).2) = storage (this w) /\
  defaultsOptions (this (run_step s w).2) = defaultsOptions (this w).
Proof.
  destruct (run_step_cases s w)
    as [->|[(channel & options & event & _ & ->)|(kept & event & _ & ->)]];
    split; reflexivity.
Qed.

Lemma run_steps_storage (ss : list step) (w : world) :
  storage (this (run_steps ss w)) = storage (this w) /\
  defaultsOptions (this (run_steps ss w)) = defaultsOptions (this w).
Proof.
  revert w. induction ss as [|s ss IH]; intros w; [split; reflexivity|].
  cbn [run_steps]. destruct (IH (run_step s w).2) as [-> ->]. apply run_step_storage.
Qed.

Lemma NoDup_unique_pairs (registry : list value) :
  unique_pairs registry -> NoDup (pair_of <$> registry).
Proof.
  intros Huniq. apply NoDup_alt. intros i j p Hi Hj.
  apply list_lookup_fmap_Some_1 in Hi as (x & -> & Hi).
  apply list_lookup_fmap_Some_1 in Hj as (y & Hxy & Hj).
  exact (Huniq i j x y Hi Hj Hxy).
Qed.

Lemma run_step_invariant (s : step) (w : world) :
  Forall is_config (starboards (this w)) ->
  NoDup (pair_of <$> starboards (this w)) ->
  Forall is_config (starboards (this (run_step s w).2)) /\
  NoDup (pair_of <$> starboards (this (run_step s w).2)).
Proof.
  intros Hcfg Hnd. destruct s as [c|channel]; cbn [run_step].
  - now apply run_call_invariant.
  - rewrite channelDelete_listener_computes.
    destruct (Array_find _ (starboards (this w))) as [x|e]; [|split; assumption].
    destruct (truthy x); [|split; assumption].
    exact (run_call_invariant (Delete (channel_id channel)) w Hcfg Hnd).
Qed.





End StepFacts.

Section MoreFacts.

(** [_init] changes no field of the instance but the registry. *)
Lemma init_fields (w : world) :
  defaultsOptions (this (fire_and_forget _init w).2) = defaultsOptions (this w) /\
  emitted (this (fire_and_forget _init w).2) = emitted (this w).
Proof.
  pose proof (getAllStarboards_this w) as Ht.
  split; unfold fire_and_forget, _init; unfold mbind at 1; unfold Action_bind;
    destruct (getAllStarboards w) as [[items|e] w']; cbn [snd] in *;
    cbn [set_starboards snd this defaultsOptions emitted]; now rewrite Ht.
Qed.

(** ** Further properties *)

(** X1.  The constructor throws in two cases only, and in this order:
    without a client, the [Error] that asks for one, whatever the options;
    with a client and [null] for options, a [TypeError].  In every other
    case it returns a manager, which has emitted nothing and holds the
    defaults it was built with. *)
Theorem constructor_outcomes (defaults : StarBoardCreateOptions)
    (client : option Client) (options : value) (files : gmap string string) :
  match client, options with
  | None, _ =>
      constructor defaults client options files
      = Throw (JsError "Client is a required parameter.")
  | Some _, VNull =>
      exists m, constructor defaults client options files = Throw (JsTypeError m)
  | Some _, _ =>
      exists w,
        constructor defaults client options files = Normal w /\
        storage (this w) = storage_of_spec options /\
        defaultsOptions (this w) = defaults /\
        emitted (this w) = []
  end.
Proof.
  destruct client as [client|]; [|reflexivity].
  assert (Hok : options <> VNull ->
            exists w,
              constructor defaults (Some client) options files = Normal w /\
              storage (this w) = storage_of_spec options /\
              defaultsOptions (this w) = defaults /\
              emitted (this w) = []).
  { intros Hnull. eexists. split; [now apply constructor_computes|].
    split; [apply init_storage|]. apply init_fields. }
  destruct options; try (apply Hok; discriminate).
  eexists. reflexivity.
Qed.



(** X4.  The listener of [channelDelete], on a registry of configs.  For a
    channel that has no starboard it does nothing: it returns without
    throwing the not-found error of [delete], and the list, the disk and the
    event log stay as they were.  For a channel that has one it does what
    [delete] does for that channel, which returns and leaves the entries of
    the other channels. *)
Theorem channelDelete_removes_channel (w : world) (channel : Channel) :
  Forall is_config (starboards (this w)) ->
  ((forall i x, starboards (this w) !! i = Some x ->
      channelID_of x <> Some (channel_id channel)) ->
   channelDelete_listener channel w = (Normal VUndefined, w)) /\
  (forall i x,
     starboards (this w) !! i = Some x ->
     channelID_of x = Some (channel_id channel) ->
     channelDelete_listener channel w = delete (channel_id channel) w /\
     exists w',
       delete (channel_id channel) w = (Normal (VBool true), w') /\
       starboards (this w')
       = filter (fun x => channelID_of x <> Some (channel_id channel))
           (starboards (this w))).
Proof.
  intros Hcfg. rewrite channelDelete_listener_computes.
  rewrite (findByChannel_first _ _ Hcfg). unfold first_of_channel. split.
  - intros Hnone.
    destruct (list_find _ _) as [[j y]|] eqn:Hfind; [|reflexivity].
    apply list_find_Some in Hfind as (Hj & Hy & _).
    exfalso. exact (Hnone j y Hj Hy).
  - intros i x Hi Hx.
    destruct (list_find _ _) as [[j y]|] eqn:Hfind.
    + change (default VUndefined (snd <$> Some (j, y))) with y.
      pose proof Hfind as Hfind'.
      apply list_find_Some in Hfind as (Hj & Hy & _).
      assert (Hcy : is_config y).
      { rewrite Forall_forall in Hcfg. apply Hcfg. eapply list_elem_of_lookup_2, Hj. }
      rewrite (is_config_truthy y Hcy). split; [reflexivity|].
      rewrite (delete_on_configs w _ Hcfg). unfold first_of_channel. rewrite Hfind'.
      eexists. split; reflexivity.
    + rewrite list_find_None, Forall_forall in Hfind.
      exfalso. apply (Hfind x); [|exact Hx]. eapply list_elem_of_lookup_2, Hi.
Qed.

Lemma channelDelete_removes_channel_witness :
  channelDelete_listener {| channel_id := "9999"; channel_guild_id := "42" |}
    example_registry_world
  = (Normal VUndefined, example_registry_world) /\
  channelDelete_listener general example_registry_world
  = delete "1001" example_registry_world.
Proof.
  assert (Hcfg : Forall is_config (starboards (this example_registry_world))).
  { repeat constructor; eexists; reflexivity. }
  split.
  - apply (proj1 (channelDelete_removes_channel example_registry_world
                    {| channel_id := "9999"; channel_guild_id := "42" |} Hcfg)).
    intros [|[|[|i]]] x [= <-]; discriminate.
  - apply (proj2 (channelDelete_removes_channel example_registry_world general Hcfg)
             0 (config_of (this example_world) general VUndefined)); reflexivity.
Defined.

(** X5.  Uniqueness is kept from any registry that has it, not only from
    the empty one, and by the listener as well: on a registry of configs no
    two of which share a (channelId, emoji) pair, as a storage file written
    by the manager gives, every sequence of calls and [channelDelete] events
    leaves a registry of configs no two of which share a pair. *)
Theorem steps_keep_pairs_unique (ss : list step) (w : world) :
  Forall is_config (starboards (this w)) ->
  unique_pairs (starboards (this w)) ->
  Forall is_config (starboards (this (run_steps ss w))) /\
  unique_pairs (starboards (this (run_steps ss w))).
Proof.
  intros Hcfg Huniq. apply NoDup_unique_pairs in Huniq.
  enough (H : Forall is_config (starboards (this (run_steps ss w))) /\
              NoDup (pair_of <$> starboards (this (run_steps ss w)))).
  { destruct H as [H1 H2]. split; [exact H1|now apply unique_pairs_NoDup]. }
  revert w Hcfg Huniq. induction ss as [|s ss IH]; intros w Hcfg Hnd; [split; assumption|].
  cbn [run_steps]. destruct (run_step_invariant s w Hcfg Hnd) as [Hcfg' Hnd'].
  now apply IH.
Qed.

Lemma steps_keep_pairs_unique_witness :
  unique_pairs (starboards (this (run_steps example_steps example_registry_world))).
Proof.
  apply (steps_keep_pairs_unique example_steps example_registry_world).
  - repeat constructor; eexists; reflexivity.
  - apply unique_pairs_NoDup. apply (bool_decide_unpack _). vm_compute. reflexivity.
Defined.

Lemma after_mutation_frame (w : world) (registry : list value)
    (event : string * value) (q : string) :
  storage (this w) <> VStr q ->
  disk (after_mutation w registry event) !! q = disk w !! q.
Proof.
  intros Hq. cbn [after_mutation disk].
  destruct (storage (this w)) as [ | | b | n | p | l | f]; try reflexivity.
  rewrite stringify_array. apply lookup_insert_ne. congruence.
Qed.

Lemma run_step_frame (s : step) (w : world) :
  (forall q, storage (this w) <> VStr q -> disk (run_step s w).2 !! q = disk w !! q) /\
  exists events,
    emitted (this (run_step s w).2) = emitted (this w) ++ events /\
    length events <= 1.
Proof.
  destruct (run_step_cases s w)
    as [->|[(channel & options & event & _ & ->)|(kept & event & _ & ->)]].
  - split; [reflexivity|]. exists []. split; [now rewrite app_nil_r|cbn; lia].
  - split; [intros q; apply after_mutation_frame|].
    exists [event]. split; [reflexivity|cbn; lia].
  - split; [intros q; apply after_mutation_frame|].
    exists [event]. split; [reflexivity|cbn; lia].
Qed.

(** X6.  What no call and no event ever touches, on any registry: the
    storage option and the defaults of the instance stay as the constructor
    set them, every file other than the storage file keeps its content (all
    files when the storage option is a boolean), and the events already
    emitted stay, each step adding at most one. *)
Theorem steps_touch_only_the_storage_file (ss : list step) (w : world) :
  storage (this (run_steps ss w)) = storage (this w) /\
  defaultsOptions (this (run_steps ss w)) = defaultsOptions (this w) /\
  (forall q, storage (this w) <> VStr q -> disk (run_steps ss w) !! q = disk w !! q) /\
  exists events,
    emitted (this (run_steps ss w)) = emitted (this w) ++ events /\
    length events <= length ss.
Proof.
  destruct (run_steps_storage ss w) as [Hs Hd]. split; [exact Hs|]. split; [exact Hd|].
  clear Hs Hd. revert w. induction ss as [|s ss IH]; intros w.
  - split; [reflexivity|]. exists []. split; [now rewrite app_nil_r|cbn; lia].
  - cbn [run_steps]. destruct (IH (run_step s w).2) as [Hdisk (events & He & Hlen)].
    destruct (run_step_frame s w) as [Hdisk1 (events1 & He1 & Hlen1)].
    destruct (run_step_storage s w) as [Hst _].
    split.
    + intros q Hq. rewrite Hdisk by (rewrite Hst; exact Hq). now apply Hdisk1.
    + exists (events1 ++ events). rewrite He, He1, app_assoc. split; [reflexivity|].
      rewrite length_app. cbn [length]. lia.
Qed.








Lemma init_creates (w : world) (p : string) :
  storage (this w) = VStr p ->
  disk w !! p = None ->
  (fire_and_forget _init w).2
  = (set_starboards [] {| this := this w; disk := <[p := "[]"]> (disk w) |}).2.
Proof.
  intros Hp Hfile. unfold fire_and_forget, _init.
  unfold mbind at 1. unfold Action_bind.
  now rewrite (getAllStarboards_absent w p Hp Hfile).
Qed.

(** X10.  The first start and the one after it.  Constructed on a disk
    with no file at the storage path, the manager writes the empty array
    there and holds an empty registry; constructed again on the disk this
    leaves, it finds the file, changes nothing on the disk and holds an
    empty registry again. *)
Theorem constructor_creates_missing_file (defaults : StarBoardCreateOptions)
    (client : Client) (options : value) (files : gmap string string) (p : string) :
  options <> VNull ->
  storage_of_spec options = VStr p ->
  files !! p = None ->
  constructor defaults (Some client) options files
  = Normal (manager_on defaults (VStr p) [] (<[p := "[]"]> files)) /\
  constructor defaults (Some client) options (<[p := "[]"]> files)
  = Normal (manager_on defaults (VStr p) [] (<[p := "[]"]> files)).
Proof.
  intros Hnull Hp Hfile. rewrite !constructor_computes by exact Hnull.
  rewrite Hp. split; apply (f_equal Normal).
  - exact (init_creates (manager_on defaults (VStr p) [] files) p eq_refl Hfile).
  - assert (Hparse : JSON.parse "[]" = Normal (VArr [])) by (vm_compute; reflexivity).
    exact (init_loads (manager_on defaults (VStr p) [] (<[p := "[]"]> files)) p "[]" []
             eq_refl (lookup_insert_eq _ _ _) Hparse).
Qed.

Lemma constructor_creates_missing_file_witness :
  constructor example_defaults (Some DiscordClient) VUndefined ∅ = Normal started_world /\
  constructor example_defaults (Some DiscordClient) VUndefined (disk started_world)
  = Normal started_world.
Proof.
  apply (constructor_creates_missing_file example_defaults DiscordClient VUndefined ∅
           "./starboards.json"); [discriminate|reflexivity|reflexivity].
Defined.

(** X11.  The constructor takes any array for a registry: when the
    storage file parses to an array, its items become the registry as they
    are, whether or not they are configs, and the disk is left alone. *)
Theorem constructor_loads_any_array (defaults : StarBoardCreateOptions)
    (client : Client) (options : value) (files : gmap string string)
    (p text : string) (items : list value) :
  options <> VNull ->
  storage_of_spec options = VStr p ->
  files !! p = Some text ->
  JSON.parse text = Normal (VArr items) ->
  constructor defaults (Some client) options files
  = Normal (manager_on defaults (VStr p) items files).
Proof.
  intros Hnull Hp Hfile Hparse. rewrite constructor_computes by exact Hnull.
  rewrite Hp. apply (f_equal Normal).
  exact (init_loads (manager_on defaults (VStr p) [] files) p text items
           eq_refl Hfile Hparse).
Qed.

Lemma constructor_loads_any_array_witness :
  constructor example_defaults (Some DiscordClient) VUndefined odd_disk
  = Normal (manager_on example_defaults (VStr "./starboards.json")
              [VNull; VNum (Int 7)] odd_disk).
Proof.
  apply (constructor_loads_any_array example_defaults DiscordClient VUndefined odd_disk
           "./starboards.json" "[null,7]");
    [discriminate|reflexivity|reflexivity|vm_compute; reflexivity].
Defined.

(** X12.  A [null] at the head of the registry, as a storage file that
    starts with [null] gives, blocks the manager: every [create], every
    [delete] and every [channelDelete] event throws a [TypeError] from its
    lookup, and nothing changes. *)
Theorem null_entry_blocks_every_step (s : step) (w : world) (rest : list value) :
  starboards (this w) = VNull :: rest ->
  exists m, run_step s w = (Throw (JsTypeError m), w).
Proof.
  intros Hreg.
  assert (Hdelete : forall channelID,
            Array_find (same_channel channelID) (starboards (this w))
            = Throw (JsTypeError "Cannot read property 'channelID' of null"))
    by (intros channelID; rewrite Hreg; reflexivity).
  destruct s as [[channel options|channelID]|channel]; cbn [run_step run_call].
  - unfold create. rewrite bind_get_this, mergeOptions_merge_over, bind_lift_Normal.
    rewrite Hreg. eexists. reflexivity.
  - unfold delete. rewrite bind_get_this, Hdelete. eexists. reflexivity.
  - rewrite channelDelete_listener_computes, Hdelete. eexists. reflexivity.
Qed.

Lemma null_entry_blocks_every_step_witness :
  exists m,
    run_step (ChannelDeleted general)
      (manager_on example_defaults (VStr "./starboards.json") [VNull; VNum (Int 7)] odd_disk)
    = (Throw (JsTypeError m),
       manager_on example_defaults (VStr "./starboards.json") [VNull; VNum (Int 7)] odd_disk).
Proof.
  apply (null_entry_blocks_every_step (ChannelDeleted general)
           (manager_on example_defaults (VStr "./starboards.json")
              [VNull; VNum (Int 7)] odd_disk)
           [VNum (Int 7)]).
  reflexivity.
Defined.





(** X14.  Options that [_mergeOptions] has produced carry all four fields
    with their types, so merging them again takes nothing from the
    defaults, whichever manager merges them: the options of a stored
    config, given to [create] again, come out as they are. *)
Theorem mergeOptions_again (self other : Manager) (options : value) :
  _mergeOptions self options ≫= _mergeOptions other = _mergeOptions self options.
Proof.
  rewrite mergeOptions_merge_over. cbn [mbind completion_bind].
  now rewrite mergeOptions_merge_over.
Qed.

Lemma getAllStarboards_not_string (w : world) :
  (forall p, storage (this w) <> VStr p) ->
  getAllStarboards w = (Throw invalid_path, w).
Proof.
  intros Hs. unfold getAllStarboards. rewrite bind_get_this.
  unfold existsAsync, writeFileAsync, mbind, Action_bind.
  destruct (storage (this w)) as [ | | b | n | p | l | f]; try reflexivity.
  now destruct (Hs p).
Qed.

(** X15.  Loading twice is loading once: after [getAllStarboards] has
    run, whatever the storage option and the disk, a second run gives the
    same answer (the same list or the same error) and changes nothing
    more. *)
Theorem getAllStarboards_repeatable (w : world) :
  getAllStarboards (getAllStarboards w).2 = getAllStarboards w.
Proof.
  assert (Hcases : (exists p, storage (this w) = VStr p) \/
                   (forall p, storage (this w) <> VStr p))
    by (destruct (storage (this w)); (left; eexists; reflexivity) || (right; discriminate)).
  destruct Hcases as [[p Hs]|Hs'].
  - destruct (disk w !! p) as [text|] eqn:Hfile.
    + rewrite (getAllStarboards_present w p text Hs Hfile).
      destruct (JSON.parse text) as [[ | | ? | ? | ? | ? | ?]|e] eqn:Hparse; cbn [snd];
        rewrite (getAllStarboards_present w p text Hs Hfile), Hparse; reflexivity.
    + rewrite (getAllStarboards_absent w p Hs Hfile). cbn [snd].
      exact (getAllStarboards_present
               {| this := this w; disk := <[p := "[]"]> (disk w) |} p "[]"
               Hs (lookup_insert_eq _ _ _)).
  - rewrite (getAllStarboards_not_string w Hs'). cbn [snd].
    exact (getAllStarboards_not_string w Hs').
Qed.

Lemma run_step_entries (s : step) (w : world) (x : value) :
  x ∈ starboards (this (run_step s w).2) ->
  x ∈ starboards (this w) \/
  exists channel options,
    s = Called (Create channel options) /\ x = config_of (this w) channel options.
Proof.
  destruct (run_step_cases s w)
    as [->|[(channel & options & event & -> & ->)|(kept & event & Hkept & ->)]];
    cbn [after_mutation this starboards].
  - now left.
  - intros [H|H]%elem_of_app; [now left|right].
    apply list_elem_of_singleton in H. eauto.
  - intros H. left. now apply Hkept.
Qed.

(** X16.  The manager invents no entry and alters none: after any
    sequence of calls and [channelDelete] events, every entry of the
    registry either was in the registry at the start, as it is, or is the
    config that one of the [create] calls of the sequence builds from its
    channel and its options merged over the defaults. *)
Theorem entries_come_from_create (ss : list step) (w : world) (x : value) :
  x ∈ starboards (this (run_steps ss w)) ->
  x ∈ starboards (this w) \/
  exists channel options,
    Called (Create channel options) ∈ ss /\
    x = channelData_of channel
          (options_object (merge_over (defaultsOptions (this w)) options)).
Proof.
  revert w. induction ss as [|s ss IH]; intros w; cbn [run_steps]; [now left|].
  intros [H|(channel & options & Hin & ->)]%IH.
  - apply run_step_entries in H as [H|(channel & options & -> & ->)]; [now left|right].
    exists channel, options. split; [left|reflexivity].
  - right. exists channel, options. split; [now right|].
    now rewrite (proj2 (run_step_storage s w)).
Qed.

Lemma entries_come_from_create_witness :
  config_of (this started_world) memes fire_options ∈ starboards (this started_world) \/
  exists channel options,
    Called (Create channel options) ∈ example_steps /\
    config_of (this started_world) memes fire_options
    = channelData_of channel
        (options_object (merge_over (defaultsOptions (this started_world)) options)).
Proof.
  apply (entries_come_from_create example_steps started_world).
  replace (starboards (this (run_steps example_steps started_world)))
    with [config_of (this started_world) memes fire_options]
    by (vm_compute; reflexivity).
  left.
Defined.

End MoreFacts.
